(** * A2DVI firmware: hi-res scanline renderer and configuration loader

    A shallow embedding of [firmware/dvi/render_hires.c] (with the
    configuration loader that lives next to it) and of the softswitch
    constants of [firmware/applebus/buffers.h], followed by the
    properties of the renderer that the design document states.

    Conventions.
    - A C [uint32_t] / [uint] is a [Z] in [0, 2^32); every C operation that
      can leave that range is wrapped with [uint32].
    - A [uint8_t] read from memory is a [Z] in [0, 256).
    - A [for (i = lo; i < hi; i++)] loop is [for_loop lo hi].
    - The [while (dotc)] loop of the monochrome path is not structurally
      recursive, so it takes fuel and returns [option].
    - Stores through the three lock-step pointers [tmdsbuf_red++],
      [tmdsbuf_green++], [tmdsbuf_blue++] are recorded as the list of table
      indices written so far; the three channel buffers are the images of
      that list under the three tables. *)

From Stdlib Require Import ZArith List Lia Bool.
Import ListNotations.

Local Open Scope Z_scope.

(** ** Machine integers *)

Definition uint32 (z : Z) : Z := z mod 2 ^ 32.
Definition uint8 (z : Z) : Z := z mod 2 ^ 8.

(** [for (uint i = lo; i < hi; i++) s = body i s;] *)
Definition for_loop {S : Type} (lo hi : nat) (body : nat -> S -> S) (s : S) : S :=
  fold_left (fun acc i => body i acc) (seq lo (hi - lo)) s.

(** The same loop when the body may fail (run out of fuel). *)
Definition for_loop_opt {S : Type} (lo hi : nat)
    (body : nat -> S -> option S) (s : S) : option S :=
  fold_left
    (fun acc i => match acc with Some a => body i a | None => None end)
    (seq lo (hi - lo)) (Some s).

(** ** applebus/buffers.h : softswitch and internal flag bits *)

Module Softsw.
Definition SOFTSW_TEXT_MODE  : Z := 0x00000001.
Definition SOFTSW_MIX_MODE   : Z := 0x00000002.
Definition SOFTSW_HIRES_MODE : Z := 0x00000004.
Definition SOFTSW_MODE_MASK  : Z := 0x00000007.
Definition SOFTSW_PAGE_2     : Z := 0x00000008.
Definition SOFTSW_CXROM      : Z := 0x00000010.
Definition SOFTSW_80STORE    : Z := 0x00000100.
Definition SOFTSW_AUX_READ   : Z := 0x00000200.
Definition SOFTSW_AUX_WRITE  : Z := 0x00000400.
Definition SOFTSW_AUXZP      : Z := 0x00000800.
Definition SOFTSW_SLOT3ROM   : Z := 0x00001000.
Definition SOFTSW_80COL      : Z := 0x00002000.
Definition SOFTSW_ALTCHAR    : Z := 0x00004000.
Definition SOFTSW_DGR        : Z := 0x00008000.
Definition SOFTSW_MONOCHROME : Z := 0x00010000.
Definition SOFTSW_IOUDIS     : Z := 0x00080000.

Definition IFLAGS_DEBUG_LINES : Z := 0x00100000.
Definition IFLAGS_MENU_ENABLE : Z := 0x00200000.
Definition IFLAGS_FORCED_MONO : Z := 0x00400000.
Definition IFLAGS_SCANLINEEMU : Z := 0x00800000.
Definition IFLAGS_VIDEO7      : Z := 0x04000000.
Definition IFLAGS_TEST        : Z := 0x20000000.
Definition IFLAGS_IIE_REGS    : Z := 0x40000000.
Definition IFLAGS_IIGS_REGS   : Z := 0x80000000.
Definition IFLAGS_V7_MODE3    : Z := 0x00000003.

Definition CHARACTER_ROM_SIZE : Z := 2048.
Definition MAX_ADDRESS        : Z := 0xC000.

(** applebus/buffers.c: [hgr_p1 = apple_memory + 0x2000],
    [hgr_p2 = apple_memory + 0x4000], as offsets into [apple_memory]. *)
Definition hgr_p1 : Z := 0x2000.
Definition hgr_p2 : Z := 0x4000.

(** [#define IS_IFLAG(FLAGS) ((internal_flags & FLAGS)==FLAGS)] *)
Definition IS_IFLAG (internal_flags FLAGS : Z) : bool :=
  Z.land internal_flags FLAGS =? FLAGS.

(** [#define SET_IFLAG(condition, FLAGS)
      { if (condition) internal_flags |= FLAGS; else internal_flags &= ~FLAGS; }] *)
Definition SET_IFLAG (condition : bool) (FLAGS internal_flags : Z) : Z :=
  if condition then uint32 (Z.lor internal_flags FLAGS)
  else uint32 (Z.land internal_flags (Z.lnot FLAGS)).
End Softsw.
Import Softsw.

(** ** render_hires.c : page select and memory offset mapper *)

(** [#define PAGE2SEL
      ((soft_switches & (SOFTSW_80STORE | SOFTSW_PAGE_2)) == SOFTSW_PAGE_2)] *)
Definition PAGE2SEL (soft_switches : Z) : bool :=
  Z.land soft_switches (Z.lor SOFTSW_80STORE SOFTSW_PAGE_2) =? SOFTSW_PAGE_2.

(** The bitmap page a scanline is read from: [(p2 ? hgr_p2 : hgr_p1)]. *)
Definition hgr_base (p2 : bool) : Z := if p2 then hgr_p2 else hgr_p1.

(** [static inline uint hires_line_to_mem_offset(uint line)] *)
Definition hires_line_to_mem_offset (line : Z) : Z :=
  uint32
    (Z.lor
       (Z.lor (uint32 (Z.shiftl (Z.land line 0x07) 10))
              (uint32 (Z.shiftl (Z.land line 0x38) 4)))
       (uint32 (Z.shiftr (Z.land line 0xc0) 6 * 40))).

(** The interleave formula as the design document writes it. *)
Definition spec_memory_offset (line : Z) : Z :=
  Z.lor (Z.lor (Z.shiftl (Z.land line 7) 10) (Z.shiftl (Z.land line 0x38) 4))
        (Z.shiftr line 6 * 40).

(** [line_mem = (p2 ? hgr_p2 : hgr_p1) + hires_line_to_mem_offset(line)];
    [line_mem[i]] is a [uint8_t] read of [apple_memory]. *)
Definition line_mem_addr (p2 : bool) (line : Z) : Z :=
  hgr_base p2 + hires_line_to_mem_offset line.

Definition read_line_mem (apple_memory : list Z) (p2 : bool) (line : Z) : list Z :=
  firstn 40 (skipn (Z.to_nat (line_mem_addr p2 line)) apple_memory).

(** A 40-byte scanline: forty [uint8_t] values. *)
Definition scanline (line_mem : list Z) : Prop :=
  length line_mem = 40%nat /\ Forall (fun b => 0 <= b < 256) line_mem.

(** [line_mem[i]] *)
Definition byte_at (line_mem : list Z) (i : nat) : Z := nth i line_mem 0.

(** ** Generated headers

    [hires_dot_patterns.h], [hires_color_patterns_tmds.h] and the TMDS symbol
    constants are generated headers that are not part of the reviewed sources;
    the renderer is parametrised by them.  A table is the function from
    index to entry. *)
Class HiresTables : Type := {
  hires_dot_patterns  : Z -> Z;
  hires_dot_patterns2 : Z -> Z;
  hires_color_patterns_red   : Z -> Z;
  hires_color_patterns_green : Z -> Z;
  hires_color_patterns_blue  : Z -> Z;
  TMDS_SYMBOL_0_0     : Z;
  TMDS_SYMBOL_255_0   : Z;
  TMDS_SYMBOL_0_255   : Z;
  TMDS_SYMBOL_255_255 : Z
}.

(** One store to each of the three channel buffers. *)
Definition triple : Type := (Z * Z * Z)%type.

Section Renderer.
Context {tables : HiresTables}.

(** *** Monochrome tables (render_hires.c, lines 37-54) *)

Definition hires_mono_patterns_red : list Z :=
  [TMDS_SYMBOL_0_0; TMDS_SYMBOL_0_0; TMDS_SYMBOL_0_0; TMDS_SYMBOL_0_0].
Definition hires_mono_patterns_green : list Z :=
  [TMDS_SYMBOL_0_0; TMDS_SYMBOL_255_0; TMDS_SYMBOL_0_255; TMDS_SYMBOL_255_255].
Definition hires_mono_patterns_blue : list Z :=
  [TMDS_SYMBOL_0_0; TMDS_SYMBOL_0_0; TMDS_SYMBOL_0_0; TMDS_SYMBOL_0_0].

Definition table_get (t : list Z) (i : Z) : Z := nth (Z.to_nat i) t 0.

(** *** Monochrome path (render_hires.c, lines 86-106) *)

(** [uint_fast8_t]: an unsigned type of at least 8 bits; [unsigned int] with
    the ARM toolchain the firmware is built with. *)
Definition uint_fast8 (z : Z) : Z := z mod 2 ^ 32.

Record mono_st : Type := {
  m_lastmsb : Z;          (* uint32_t lastmsb *)
  m_dotc    : Z;          (* uint_fast8_t dotc *)
  m_dots    : Z;          (* uint32_t dots *)
  m_out     : list Z      (* [dots & 0x3] of every store, oldest first *)
}.

Definition mono_init : mono_st :=
  {| m_lastmsb := 0; m_dotc := 0; m_dots := 0; m_out := [] |}.

(** The index of the [hires_dot_patterns2] lookup: [lastmsb | line_mem[i]]. *)
Definition mono_pattern_index (st : mono_st) (b : Z) : Z :=
  Z.lor (m_lastmsb st) b.

(** [[
      dots |= (hires_dot_patterns2[lastmsb | line_mem[i]]) << dotc;
      lastmsb = (dotc>0) ? ((line_mem[i] & 0x40)<<2) : 0;
      dotc += 14;
    ]] *)
Definition mono_load (b : Z) (st : mono_st) : mono_st :=
  {| m_dots :=
       uint32 (Z.lor (m_dots st)
                 (uint32 (Z.shiftl (hires_dot_patterns2 (mono_pattern_index st b))
                                   (m_dotc st))));
     m_lastmsb :=
       if m_dotc st >? 0 then uint32 (Z.shiftl (Z.land b 0x40) 2) else 0;
     m_dotc := uint_fast8 (m_dotc st + 14);
     m_out := m_out st |}.

(** One pass of the body of [while(dotc)]. *)
Definition mono_emit (st : mono_st) : mono_st :=
  {| m_lastmsb := m_lastmsb st;
     m_out := m_out st ++ [Z.land (m_dots st) 0x3];
     m_dots := Z.shiftr (m_dots st) 2;
     m_dotc := uint_fast8 (m_dotc st - 2) |}.

(** [while(dotc) { ... }]; [None] when the fuel runs out first. *)
Fixpoint mono_consume (fuel : nat) (st : mono_st) : option mono_st :=
  if m_dotc st =? 0 then Some st
  else match fuel with
       | O => None
       | S fuel' => mono_consume fuel' (mono_emit st)
       end.

(** The body of [for(uint i=0; i < 40; i++)]. *)
Definition mono_iter (fuel : nat) (line_mem : list Z) (i : nat) (st : mono_st)
  : option mono_st :=
  mono_consume fuel (mono_load (byte_at line_mem i) st).

(** The state on entry to pass [k] of the loop (after [k] whole passes). *)
Definition mono_prefix (fuel : nat) (line_mem : list Z) (k : nat) : option mono_st :=
  for_loop_opt 0 k (mono_iter fuel line_mem) mono_init.

Definition render_mono (fuel : nat) (line_mem : list Z) : option mono_st :=
  mono_prefix fuel line_mem 40.

Definition mono_triple (idx : Z) : triple :=
  (table_get hires_mono_patterns_red idx,
   table_get hires_mono_patterns_green idx,
   table_get hires_mono_patterns_blue idx).

(** *** Color path (render_hires.c, lines 128-153) *)

(** One pass of the inner loop stores the table entries at
    [dot_pattern = oddness | ((dots >> 24) & 0xff)]. *)
Record color_emit : Type := {
  e_oddness : Z;          (* oddness at the time of the store *)
  e_window  : Z           (* (dots >> 24) & 0xff *)
}.

Definition dot_pattern (e : color_emit) : Z := Z.lor (e_oddness e) (e_window e).

Record color_st : Type := {
  c_oddness : Z;             (* uint oddness *)
  c_dots    : Z;             (* uint32_t dots *)
  c_out     : list color_emit
}.

(** [uint32_t dots = (uint32_t)hires_dot_patterns[line_mem[0]] << 15;] *)
Definition color_seed (line_mem : list Z) : Z :=
  uint32 (Z.shiftl (uint32 (hires_dot_patterns (byte_at line_mem 0))) 15).

Definition color_init (line_mem : list Z) : color_st :=
  {| c_oddness := 0; c_dots := color_seed line_mem; c_out := [] |}.

(** [uint b = (i < 40) ? line_mem[i] : 0;] *)
Definition color_byte (line_mem : list Z) (i : nat) : Z :=
  if (i <? 40)%nat then byte_at line_mem i else 0.

(** [if(b & 0x80) { dots |= (dots & (1u << 15)) >> 1; }] *)
Definition color_extend (b dots : Z) : Z :=
  if Z.land b 0x80 =? 0 then dots
  else Z.lor dots (Z.shiftr (Z.land dots (Z.shiftl 1 15)) 1).

(** [dots |= (uint32_t)hires_dot_patterns[b] << 1;] after the extension. *)
Definition color_merge (b dots : Z) : Z :=
  Z.lor (color_extend b dots)
        (uint32 (Z.shiftl (uint32 (hires_dot_patterns b)) 1)).

(** The body of [for(uint j=0; j < 7; j++)]. *)
Definition color_consume (j : nat) (st : color_st) : color_st :=
  {| c_out := c_out st ++
              [{| e_oddness := c_oddness st;
                  e_window := Z.land (Z.shiftr (c_dots st) 24) 0xff |}];
     c_dots := uint32 (Z.shiftl (c_dots st) 2);
     c_oddness := uint32 (Z.lxor (c_oddness st) 0x100) |}.

(** Merge byte [b], then consume 14 dots: the body of the outer loop once
    [b] is known. *)
Definition color_step (b : Z) (st : color_st) : color_st :=
  for_loop 0 7 color_consume
    {| c_oddness := c_oddness st;
       c_dots := color_merge b (c_dots st);
       c_out := c_out st |}.

(** The body of [for(uint i=1; i < 41; i++)]. *)
Definition color_iter (line_mem : list Z) (i : nat) (st : color_st) : color_st :=
  color_step (color_byte line_mem i) st.

(** The state on entry to the pass with [i = 1 + k]. *)
Definition color_prefix (line_mem : list Z) (k : nat) : color_st :=
  for_loop 1 (1 + k) (color_iter line_mem) (color_init line_mem).

Definition render_color (line_mem : list Z) : color_st :=
  for_loop 1 41 (color_iter line_mem) (color_init line_mem).

Definition color_triple (e : color_emit) : triple :=
  (hires_color_patterns_red (dot_pattern e),
   hires_color_patterns_green (dot_pattern e),
   hires_color_patterns_blue (dot_pattern e)).

(** *** render_hires_line, render_hires, render_mixed_hires *)

(** What the three channel buffers hold when the scanline is sent.
    [dvi_get_scanline], [dvi_scanline_rgb] and [dvi_send_scanline] belong to
    the transport and only hand the buffers over; they are left out. *)
Definition render_hires_line (fuel : nat) (mono_rendering : bool)
    (apple_memory : list Z) (p2 : bool) (line : Z) : option (list triple) :=
  let line_mem := read_line_mem apple_memory p2 line in
  if mono_rendering then
    match render_mono fuel line_mem with
    | Some st => Some (map mono_triple (m_out st))
    | None => None
    end
  else Some (map color_triple (c_out (render_color line_mem))).

(** The device state is volatile: it is sampled anew for every line. *)
Record device : Type := {
  soft_switches  : Z;
  mono_rendering : bool;
  apple_memory   : list Z
}.

Definition render_lines (fuel : nat) (dev : nat -> device) (n : nat)
  : list (option (list triple)) :=
  map (fun line =>
         render_hires_line fuel (mono_rendering (dev line))
           (apple_memory (dev line))
           (PAGE2SEL (soft_switches (dev line))) (Z.of_nat line))
      (seq 0 n).

(** [for(uint line=0; line < 192; line++) render_hires_line(PAGE2SEL, line);] *)
Definition render_hires (fuel : nat) (dev : nat -> device) :=
  render_lines fuel dev 192.

(** The graphics part of [render_mixed_hires]: lines 0..159. *)
Definition render_mixed_hires (fuel : nat) (dev : nat -> device) :=
  render_lines fuel dev 160.

End Renderer.

(** ** Configuration loader (config_load, config_load_defaults)

    [config/config.h] and [fonts/textfont.h] are not among the reviewed
    sources: the enumeration values and font constants they declare are
    parameters.  [FLASH_SECTOR_SIZE] is fixed by the source itself, which
    refuses to build unless [FLASH_SECTOR_SIZE == 2*CHARACTER_ROM_SIZE].
    The build is taken without [APPLE_MODEL_IIPLUS]. *)
Class ConfigPlatform : Type := {
  MACHINE_AUTO    : Z;
  MACHINE_II      : Z;
  MACHINE_IIE     : Z;
  MACHINE_IIGS    : Z;
  MACHINE_AGAT7   : Z;
  MACHINE_AGAT9   : Z;
  MACHINE_BASIS   : Z;
  MACHINE_PRAVETZ : Z;
  MACHINE_MAX_CFG : Z;
  COLOR_MODE_BW   : Z;
  DEFAULT_LOCAL_CHARSET : Z;
  DEFAULT_ALT_CHARSET   : Z;
  MAX_FONT_COUNT    : Z;
  CUSTOM_FONT_COUNT : Z;
  character_roms    : Z -> list Z
}.

Module Config.

Definition CFG_MAGIC_WORD_VALUE  : Z := 0x32495644.
Definition FONT_MAGIC_WORD_VALUE : Z := 0x544e4f46.
Definition FLASH_SECTOR_SIZE     : Z := 2 * CHARACTER_ROM_SIZE.

(** [struct config_t], the image stored in flash. *)
Record config_t : Type := {
  magic_word : Z;                  (* uint32_t *)
  size : Z;                        (* uint16_t *)
  scanline_emulation : Z;          (* uint8_t, and all below *)
  forced_monochrome : Z;
  s_color_mode : Z;
  machine_type : Z;
  local_charset : Z;
  alt_charset : Z;
  s_language_switch_enabled : Z;
  s_enhanced_font_enabled : Z;
  video7_enabled : Z;
  debug_lines_enabled : Z;
  test_mode_enabled : Z
}.

(** [struct fontdir_t] *)
Record fontdir_t : Type := {
  f_magic_word : Z;
  f_invalid_fonts : Z
}.

(** The global variables the loader reads and writes. *)
Record globals : Type := {
  internal_flags : Z;
  detected_machine : Z;
  cfg_machine : Z;
  current_machine : Z;
  language_switch_enabled : bool;
  enhanced_font_enabled : bool;
  cfg_local_charset : Z;
  cfg_alt_charset : Z;
  reload_charsets : Z;
  invalid_fonts : Z;
  color_mode : Z;
  character_rom : list Z
}.

Definition set_internal_flags (v : Z) (g : globals) : globals :=
  {| internal_flags := v; detected_machine := detected_machine g;
     cfg_machine := cfg_machine g; current_machine := current_machine g;
     language_switch_enabled := language_switch_enabled g;
     enhanced_font_enabled := enhanced_font_enabled g;
     cfg_local_charset := cfg_local_charset g;
     cfg_alt_charset := cfg_alt_charset g;
     reload_charsets := reload_charsets g; invalid_fonts := invalid_fonts g;
     color_mode := color_mode g; character_rom := character_rom g |}.

Definition set_cfg_machine (v : Z) (g : globals) : globals :=
  {| internal_flags := internal_flags g; detected_machine := detected_machine g;
     cfg_machine := v; current_machine := current_machine g;
     language_switch_enabled := language_switch_enabled g;
     enhanced_font_enabled := enhanced_font_enabled g;
     cfg_local_charset := cfg_local_charset g;
     cfg_alt_charset := cfg_alt_charset g;
     reload_charsets := reload_charsets g; invalid_fonts := invalid_fonts g;
     color_mode := color_mode g; character_rom := character_rom g |}.

Definition set_current_machine (v : Z) (g : globals) : globals :=
  {| internal_flags := internal_flags g; detected_machine := detected_machine g;
     cfg_machine := cfg_machine g; current_machine := v;
     language_switch_enabled := language_switch_enabled g;
     enhanced_font_enabled := enhanced_font_enabled g;
     cfg_local_charset := cfg_local_charset g;
     cfg_alt_charset := cfg_alt_charset g;
     reload_charsets := reload_charsets g; invalid_fonts := invalid_fonts g;
     color_mode := color_mode g; character_rom := character_rom g |}.

Definition set_language_switch_enabled (v : bool) (g : globals) : globals :=
  {| internal_flags := internal_flags g; detected_machine := detected_machine g;
     cfg_machine := cfg_machine g; current_machine := current_machine g;
     language_switch_enabled := v;
     enhanced_font_enabled := enhanced_font_enabled g;
     cfg_local_charset := cfg_local_charset g;
     cfg_alt_charset := cfg_alt_charset g;
     reload_charsets := reload_charsets g; invalid_fonts := invalid_fonts g;
     color_mode := color_mode g; character_rom := character_rom g |}.

Definition set_enhanced_font_enabled (v : bool) (g : globals) : globals :=
  {| internal_flags := internal_flags g; detected_machine := detected_machine g;
     cfg_machine := cfg_machine g; current_machine := current_machine g;
     language_switch_enabled := language_switch_enabled g;
     enhanced_font_enabled := v;
     cfg_local_charset := cfg_local_charset g;
     cfg_alt_charset := cfg_alt_charset g;
     reload_charsets := reload_charsets g; invalid_fonts := invalid_fonts g;
     color_mode := color_mode g; character_rom := character_rom g |}.

Definition set_cfg_local_charset (v : Z) (g : globals) : globals :=
  {| internal_flags := internal_flags g; detected_machine := detected_machine g;
     cfg_machine := cfg_machine g; current_machine := current_machine g;
     language_switch_enabled := language_switch_enabled g;
     enhanced_font_enabled := enhanced_font_enabled g;
     cfg_local_charset := v;
     cfg_alt_charset := cfg_alt_charset g;
     reload_charsets := reload_charsets g; invalid_fonts := invalid_fonts g;
     color_mode := color_mode g; character_rom := character_rom g |}.

Definition set_cfg_alt_charset (v : Z) (g : globals) : globals :=
  {| internal_flags := internal_flags g; detected_machine := detected_machine g;
     cfg_machine := cfg_machine g; current_machine := current_machine g;
     language_switch_enabled := language_switch_enabled g;
     enhanced_font_enabled := enhanced_font_enabled g;
     cfg_local_charset := cfg_local_charset g;
     cfg_alt_charset := v;
     reload_charsets := reload_charsets g; invalid_fonts := invalid_fonts g;
     color_mode := color_mode g; character_rom := character_rom g |}.

Definition set_reload_charsets (v : Z) (g : globals) : globals :=
  {| internal_flags := internal_flags g; detected_machine := detected_machine g;
     cfg_machine := cfg_machine g; current_machine := current_machine g;
     language_switch_enabled := language_switch_enabled g;
     enhanced_font_enabled := enhanced_font_enabled g;
     cfg_local_charset := cfg_local_charset g;
     cfg_alt_charset := cfg_alt_charset g;
     reload_charsets := v; invalid_fonts := invalid_fonts g;
     color_mode := color_mode g; character_rom := character_rom g |}.

Definition set_invalid_fonts (v : Z) (g : globals) : globals :=
  {| internal_flags := internal_flags g; detected_machine := detected_machine g;
     cfg_machine := cfg_machine g; current_machine := current_machine g;
     language_switch_enabled := language_switch_enabled g;
     enhanced_font_enabled := enhanced_font_enabled g;
     cfg_local_charset := cfg_local_charset g;
     cfg_alt_charset := cfg_alt_charset g;
     reload_charsets := reload_charsets g; invalid_fonts := v;
     color_mode := color_mode g; character_rom := character_rom g |}.

Definition set_color_mode (v : Z) (g : globals) : globals :=
  {| internal_flags := internal_flags g; detected_machine := detected_machine g;
     cfg_machine := cfg_machine g; current_machine := current_machine g;
     language_switch_enabled := language_switch_enabled g;
     enhanced_font_enabled := enhanced_font_enabled g;
     cfg_local_charset := cfg_local_charset g;
     cfg_alt_charset := cfg_alt_charset g;
     reload_charsets := reload_charsets g; invalid_fonts := invalid_fonts g;
     color_mode := v; character_rom := character_rom g |}.

Definition set_character_rom (v : list Z) (g : globals) : globals :=
  {| internal_flags := internal_flags g; detected_machine := detected_machine g;
     cfg_machine := cfg_machine g; current_machine := current_machine g;
     language_switch_enabled := language_switch_enabled g;
     enhanced_font_enabled := enhanced_font_enabled g;
     cfg_local_charset := cfg_local_charset g;
     cfg_alt_charset := cfg_alt_charset g;
     reload_charsets := reload_charsets g; invalid_fonts := invalid_fonts g;
     color_mode := color_mode g; character_rom := v |}.

(** [SET_IFLAG(condition, FLAGS);] on the globals. *)
Definition set_iflag (condition : bool) (FLAGS : Z) (g : globals) : globals :=
  set_internal_flags (SET_IFLAG condition FLAGS (internal_flags g)) g.

(** [memcpy32(dst + off, src, size)] from [util/dmacopy.h], which is not
    among the reviewed sources; taken to copy [size] bytes like [memcpy]. *)
Definition memcpy32 (dst : list Z) (off : Z) (src : list Z) (size : Z) : list Z :=
  firstn (Z.to_nat off) dst ++ firstn (Z.to_nat size) src
    ++ skipn (Z.to_nat (off + size)) dst.

Section Loader.
Context {platform : ConfigPlatform}.

(** [void set_machine(compat_t machine)] *)
Definition set_machine (machine : Z) (g : globals) : globals :=
  let flags := internal_flags g in
  let flags' :=
    if (machine =? MACHINE_AUTO) || (machine =? MACHINE_AGAT7)
       || (machine =? MACHINE_AGAT9) || (machine =? MACHINE_BASIS)
       || (machine =? MACHINE_PRAVETZ) || (machine =? MACHINE_II)
    then uint32 (Z.land flags (Z.lnot (Z.lor IFLAGS_IIGS_REGS IFLAGS_IIE_REGS)))
    else if machine =? MACHINE_IIE
    then uint32 (Z.lor (uint32 (Z.land flags (Z.lnot IFLAGS_IIGS_REGS)))
                       IFLAGS_IIE_REGS)
    else if machine =? MACHINE_IIGS
    then uint32 (Z.lor (uint32 (Z.land flags (Z.lnot IFLAGS_IIE_REGS)))
                       IFLAGS_IIGS_REGS)
    else flags in
  set_current_machine machine (set_internal_flags flags' g).

(** [static uint8_t check_valid_font(uint32_t font_nr)] *)
Definition check_valid_font (g : globals) (font_nr : Z) : Z :=
  if font_nr <? MAX_FONT_COUNT - CUSTOM_FONT_COUNT then uint8 font_nr
  else
    let custom_font := uint8 (font_nr - (MAX_FONT_COUNT - CUSTOM_FONT_COUNT)) in
    if Z.land (invalid_fonts g) (uint32 (Z.shiftl 1 custom_font)) =? 0
    then uint8 font_nr
    else uint8 DEFAULT_LOCAL_CHARSET.

(** [void config_load_charsets(void)] *)
Definition config_load_charsets (g : globals) : globals :=
  let g1 :=
    if Z.land (reload_charsets g) 1 =? 0 then g
    else
      let rom :=
        memcpy32 (character_rom g) 0
          (character_roms (check_valid_font g (cfg_local_charset g)))
          CHARACTER_ROM_SIZE in
      let rom :=
        if enhanced_font_enabled g then rom
        else memcpy32 rom (0x40 * 8) rom (0x20 * 8) in
      set_character_rom rom g in
  let g2 :=
    if Z.land (reload_charsets g1) 2 =? 0 then g1
    else
      let rom :=
        memcpy32 (character_rom g1) 0x800
          (character_roms (check_valid_font g1 (cfg_alt_charset g1)))
          CHARACTER_ROM_SIZE in
      let rom :=
        if enhanced_font_enabled g1 then rom
        else memcpy32 rom (0x800 + 0x40 * 8) (skipn 0x800 rom) (0x20 * 8) in
      set_character_rom rom g1 in
  set_reload_charsets 0 g2.

(** [void config_load_defaults(void)] *)
Definition config_load_defaults (g : globals) : globals :=
  let g := set_iflag true IFLAGS_SCANLINEEMU g in
  let g := set_iflag false IFLAGS_DEBUG_LINES g in
  let g := set_iflag false IFLAGS_FORCED_MONO g in
  let g := set_iflag false IFLAGS_VIDEO7 g in
  let g := set_iflag false IFLAGS_TEST g in
  let g := set_color_mode COLOR_MODE_BW g in
  let g := set_cfg_machine MACHINE_AUTO g in
  let g := set_machine (detected_machine g) g in
  let g := set_language_switch_enabled false g in
  let g := set_enhanced_font_enabled true g in
  let g := set_cfg_local_charset DEFAULT_LOCAL_CHARSET g in
  let g := set_cfg_alt_charset DEFAULT_ALT_CHARSET g in
  set_reload_charsets 3 g.

(** The first statement of [config_load]: the font directory, a flash
    sector of its own, is consulted before the configuration is looked at. *)
Definition load_font_directory (dir : fontdir_t) (g : globals) : globals :=
  if f_magic_word dir =? FONT_MAGIC_WORD_VALUE
  then set_invalid_fonts (f_invalid_fonts dir) g
  else g.

(** The test that guards the early return of [config_load]. *)
Definition config_invalid (cfg : config_t) : bool :=
  negb (magic_word cfg =? CFG_MAGIC_WORD_VALUE) || (size cfg >? FLASH_SECTOR_SIZE).

(** [config_load] from the statement after the early return on. *)
Definition config_apply (cfg : config_t) (g : globals) : globals :=
  let g := set_cfg_machine
             (if machine_type cfg <=? MACHINE_MAX_CFG
              then machine_type cfg else MACHINE_AUTO) g in
  let g := set_machine (cfg_machine g) g in
  let g := set_iflag (negb (scanline_emulation cfg =? 0)) IFLAGS_SCANLINEEMU g in
  let g := set_iflag (negb (forced_monochrome cfg =? 0)) IFLAGS_FORCED_MONO g in
  let g := set_iflag (negb (video7_enabled cfg =? 0)) IFLAGS_VIDEO7 g in
  let g := set_iflag (negb (debug_lines_enabled cfg =? 0)) IFLAGS_DEBUG_LINES g in
  let g := set_iflag (negb (test_mode_enabled cfg =? 0)) IFLAGS_TEST g in
  let g := set_language_switch_enabled
             (negb (s_language_switch_enabled cfg =? 0)) g in
  let g := set_enhanced_font_enabled
             (negb (s_enhanced_font_enabled cfg =? 0)) g in
  let g := set_color_mode
             (if s_color_mode cfg <=? 2 then s_color_mode cfg else 0) g in
  let g := set_cfg_local_charset
             (if local_charset cfg >=? MAX_FONT_COUNT then 0
              else local_charset cfg) g in
  let g := set_cfg_alt_charset
             (if alt_charset cfg >=? MAX_FONT_COUNT then 0
              else alt_charset cfg) g in
  let g := set_reload_charsets 3 g in
  config_load_charsets g.

(** [void config_load(void)]; [cfg] and [dir] are the two flash images. *)
Definition config_load (cfg : config_t) (dir : fontdir_t) (g : globals) : globals :=
  let g := load_font_directory dir g in
  if config_invalid cfg then config_load_defaults g
  else config_apply cfg g.

End Loader.
End Config.

(** ** Sample data

    A table set of the documented shape (7 pixels doubled to 14 dots, the
    whole pattern delayed by one dot when bit 7 is set) and a sample
    platform, used to instantiate the statements below on concrete inputs.
    They are not the generated firmware tables. *)

Definition demo_dot_pattern (b : Z) : Z :=
  let d :=
    fold_left
      (fun acc k =>
         if Z.testbit b (Z.of_nat k)
         then Z.lor acc (Z.shiftl 3 (12 - 2 * Z.of_nat k)) else acc)
      (seq 0 7) 0 in
  if Z.testbit b 7 then Z.shiftr d 1 else d.

Definition demo_tables : HiresTables := {|
  hires_dot_patterns  := demo_dot_pattern;
  hires_dot_patterns2 := fun i => demo_dot_pattern (i mod 256);
  hires_color_patterns_red   := fun i => i;
  hires_color_patterns_green := fun i => 2 * i;
  hires_color_patterns_blue  := fun i => 3 * i;
  TMDS_SYMBOL_0_0     := 0;
  TMDS_SYMBOL_255_0   := 1;
  TMDS_SYMBOL_0_255   := 2;
  TMDS_SYMBOL_255_255 := 3
|}.

(** Bytes 110, 111, ..., 149: both settings of bit 7 occur. *)
Definition demo_line : list Z := map Z.of_nat (seq 110 40).

(** [demo_line] with the byte at index 17 (127) replaced by 0; the bytes
    from index 18 on are the same. *)
Definition demo_line_cleared : list Z :=
  firstn 17 demo_line ++ [0] ++ skipn 18 demo_line.

(** A stored configuration with the right magic word and size whose
    settings are all out of range. *)
Definition demo_unclean_config : Config.config_t :=
  {| Config.magic_word := 0x32495644; Config.size := 17;
     Config.scanline_emulation := 1; Config.forced_monochrome := 0;
     Config.s_color_mode := 7; Config.machine_type := 9;
     Config.local_charset := 200; Config.alt_charset := 32;
     Config.s_language_switch_enabled := 2;
     Config.s_enhanced_font_enabled := 0;
     Config.video7_enabled := 0; Config.debug_lines_enabled := 0;
     Config.test_mode_enabled := 0 |}.

Definition demo_platform : ConfigPlatform := {|
  MACHINE_II := 0; MACHINE_IIE := 1; MACHINE_IIGS := 2;
  MACHINE_AGAT7 := 3; MACHINE_AGAT9 := 4; MACHINE_BASIS := 5;
  MACHINE_PRAVETZ := 6; MACHINE_MAX_CFG := 6; MACHINE_AUTO := 0xff;
  COLOR_MODE_BW := 0;
  DEFAULT_LOCAL_CHARSET := 0; DEFAULT_ALT_CHARSET := 0;
  MAX_FONT_COUNT := 32; CUSTOM_FONT_COUNT := 16;
  character_roms := fun _ => repeat 0 2048
|}.

Definition demo_globals : Config.globals :=
  {| Config.internal_flags := IFLAGS_V7_MODE3;
     Config.detected_machine := 1;
     Config.cfg_machine := 0xff;
     Config.current_machine := 0xff;
     Config.language_switch_enabled := false;
     Config.enhanced_font_enabled := false;
     Config.cfg_local_charset := 0;
     Config.cfg_alt_charset := 0;
     Config.reload_charsets := 0;
     Config.invalid_fonts := 0xffffffff;
     Config.color_mode := 1;
     Config.character_rom := repeat 0 4096 |}.

(** An erased flash sector: every byte reads 0xff. *)
Definition demo_erased_config : Config.config_t :=
  {| Config.magic_word := 0xffffffff; Config.size := 0xffff;
     Config.scanline_emulation := 0xff; Config.forced_monochrome := 0xff;
     Config.s_color_mode := 0xff; Config.machine_type := 0xff;
     Config.local_charset := 0xff; Config.alt_charset := 0xff;
     Config.s_language_switch_enabled := 0xff;
     Config.s_enhanced_font_enabled := 0xff;
     Config.video7_enabled := 0xff; Config.debug_lines_enabled := 0xff;
     Config.test_mode_enabled := 0xff |}.

Definition demo_fontdir : Config.fontdir_t :=
  {| Config.f_magic_word := 0xffffffff; Config.f_invalid_fonts := 0xffffffff |}.

(** ** Invariants used in the proofs *)

(** The decidable form of the offset mapper's contract, for one line. *)
Definition offset_check (line : Z) : bool :=
  (hires_line_to_mem_offset line =? spec_memory_offset line)
  && (0 <=? hires_line_to_mem_offset line)
  && (hires_line_to_mem_offset line <? 8192).

(** The value of [oddness] after [n] toggles. *)
Definition oddness_after (n : nat) : Z := if Nat.even n then 0 else 0x100.

(** What the [k]-th store of a line looks like. *)
Definition emit_ok (k : nat) (e : color_emit) : Prop :=
  e_oddness e = oddness_after k /\ 0 <= e_window e < 256.

Definition color_inv (st : color_st) : Prop :=
  c_oddness st = oddness_after (length (c_out st))
  /\ forall k e, nth_error (c_out st) k = Some e -> emit_ok k e.

(** Bits [0 .. n-1] of [z] are clear. *)
Definition low_clear (n z : Z) : Prop :=
  forall i, 0 <= i < n -> Z.testbit z i = false.

(** An index inside the 4-entry monochrome tables. *)
Definition mono_index_ok (i : Z) : Prop := 0 <= i < 4.

(** ** Configuration store (config_flash_write, config_save,
       config_font_update)

    [flash_range_erase] and [flash_range_program] belong to the SDK.  The
    configuration sector is only ever looked at through [cfg], a pointer to
    [struct config_t], and the font directory sector through
    [font_directory]; a sector is therefore represented by the structure
    read through that pointer.  Erasing a sector and programming a buffer
    that starts with a structure makes the pointer read that structure. *)
Module ConfigStore.
Import Config.

(** [sizeof(struct config_t)]: the structure is packed, 4 + 2 + 11 bytes. *)
Definition sizeof_config_t : Z := 17.

(** A C truth value stored in a [uint8_t]. *)
Definition bool_to_Z (b : bool) : Z := if b then 1 else 0.

(** [const int new_config_size =
      (sizeof(struct config_t) + FLASH_PAGE_SIZE - 1) & -FLASH_PAGE_SIZE;]
    [FLASH_PAGE_SIZE] comes from the SDK header [hardware/flash.h]. *)
Definition new_config_size (FLASH_PAGE_SIZE : Z) : Z :=
  Z.land (uint32 (sizeof_config_t + FLASH_PAGE_SIZE - 1))
         (uint32 (- FLASH_PAGE_SIZE)).

(** The structure [config_save] builds in [new_config]. *)
Definition config_image (g : globals) : config_t :=
  {| magic_word := CFG_MAGIC_WORD_VALUE;
     size := sizeof_config_t;
     scanline_emulation :=
       bool_to_Z (IS_IFLAG (internal_flags g) IFLAGS_SCANLINEEMU);
     forced_monochrome :=
       bool_to_Z (IS_IFLAG (internal_flags g) IFLAGS_FORCED_MONO);
     video7_enabled := bool_to_Z (IS_IFLAG (internal_flags g) IFLAGS_VIDEO7);
     debug_lines_enabled :=
       bool_to_Z (IS_IFLAG (internal_flags g) IFLAGS_DEBUG_LINES);
     test_mode_enabled := bool_to_Z (IS_IFLAG (internal_flags g) IFLAGS_TEST);
     s_color_mode := uint8 (color_mode g);
     machine_type := uint8 (cfg_machine g);
     local_charset := uint8 (cfg_local_charset g);
     alt_charset := uint8 (cfg_alt_charset g);
     s_language_switch_enabled := bool_to_Z (language_switch_enabled g);
     s_enhanced_font_enabled := bool_to_Z (enhanced_font_enabled g) |}.

(** [bool config_flash_write(void* flash_address, uint8_t* data, uint32_t size)]
    on the configuration sector: the result and the sector afterwards.
    The sector afterwards is exact for an accepted [size] of at least
    [sizeof(struct config_t)], the only sizes [config_save] passes; with
    fewer bytes programmed the rest of the structure would read as erased
    flash, which this view does not represent. *)
Definition config_flash_write (sector data : config_t) (size : Z)
  : bool * config_t :=
  if size >? FLASH_SECTOR_SIZE then (false, sector) else (true, data).

(** [void config_save(void)]: the configuration sector afterwards. *)
Definition config_save (FLASH_PAGE_SIZE : Z) (g : globals) (sector : config_t)
  : config_t :=
  snd (config_flash_write sector (config_image g)
         (new_config_size FLASH_PAGE_SIZE)).

(** [void config_font_update(void)]: the font directory sector afterwards. *)
Definition config_font_update (g : globals) : fontdir_t :=
  {| f_magic_word := FONT_MAGIC_WORD_VALUE;
     f_invalid_fonts := invalid_fonts g |}.

(** The C types of the globals: [uint8_t] settings, [uint32_t] words. *)
Definition globals_wf (g : globals) : Prop :=
  0 <= internal_flags g < 2 ^ 32
  /\ 0 <= cfg_machine g < 256
  /\ 0 <= color_mode g < 256
  /\ 0 <= cfg_local_charset g < 256
  /\ 0 <= cfg_alt_charset g < 256.

(** The case labels of the [switch] in [set_machine] are distinct. *)
Definition machines_distinct {platform : ConfigPlatform} : Prop :=
  NoDup [MACHINE_AUTO; MACHINE_AGAT7; MACHINE_AGAT9; MACHINE_BASIS;
         MACHINE_PRAVETZ; MACHINE_II; MACHINE_IIE; MACHINE_IIGS].

(** First index of the custom fonts: [MAX_FONT_COUNT-CUSTOM_FONT_COUNT]. *)
Definition first_custom_font {platform : ConfigPlatform} : Z :=
  MAX_FONT_COUNT - CUSTOM_FONT_COUNT.

End ConfigStore.

(** ** Further vocabulary *)

(** The interleave in arithmetic form: 8 rows of 1024 bytes, 8 blocks of
    128 bytes in each, three 40-byte lines in each block. *)
Definition offset_arith (line : Z) : Z :=
  1024 * (line mod 8) + 128 * ((line / 8) mod 8) + 40 * (line / 64).

(** Two display lines occupy disjoint 40-byte ranges of the page. *)
Definition lines_apart (l1 l2 : Z) : bool :=
  (l1 =? l2)
  || (hires_line_to_mem_offset l1 + 40 <=? hires_line_to_mem_offset l2)
  || (hires_line_to_mem_offset l2 + 40 <=? hires_line_to_mem_offset l1).

(** One display line: arithmetic form, inside the page, apart from all
    other display lines. *)
Definition line_layout_check (line : Z) : bool :=
  (hires_line_to_mem_offset line =? offset_arith line)
  && (hires_line_to_mem_offset line + 40 <=? 8192)
  && forallb (lines_apart line) (map Z.of_nat (seq 0 192)).

(** The seven 2-bit groups of a 14-dot pattern, lowest first. *)
Definition dot_groups (d : Z) : list Z :=
  map (fun j => Z.land (Z.shiftr d (2 * Z.of_nat j)) 0x3) (seq 0 7).

(** The seven 8-dot windows a pass of the color path looks at, in order. *)
Definition windows_of (m : Z) : list Z :=
  map (fun j => Z.land (Z.shiftr m (24 - 2 * Z.of_nat j)) 0xff) (seq 0 7).

(** * Properties *)

(** ** Arithmetic helpers *)

Lemma Z_range_forallb (P : Z -> bool) (n : nat) :
  forallb P (map Z.of_nat (seq 0 n)) = true ->
  forall z, 0 <= z < Z.of_nat n -> P z = true.
Proof.
  intros H z Hz.
  rewrite forallb_forall in H. apply H.
  rewrite in_map_iff. exists (Z.to_nat z). split; [lia|].
  apply in_seq. lia.
Qed.

Lemma land_pow2_cases (a k : Z) :
  0 <= k ->
  Z.land a (2 ^ k) = (if Z.testbit a k then 2 ^ k else 0).
Proof.
  intros Hk. apply Z.bits_inj'. intros n Hn.
  rewrite Z.land_spec.
  destruct (Z.testbit a k) eqn:E.
  - rewrite Z.pow2_bits_eqb by assumption.
    destruct (Z.eqb_spec k n) as [->|]; [now rewrite E|apply andb_false_r].
  - rewrite Z.bits_0, Z.pow2_bits_eqb by assumption.
    destruct (Z.eqb_spec k n) as [->|]; [now rewrite E|apply andb_false_r].
Qed.

Lemma lor_lt_pow2 (a b n : Z) :
  0 <= n -> 0 <= a < 2 ^ n -> 0 <= b < 2 ^ n -> 0 <= Z.lor a b < 2 ^ n.
Proof.
  intros Hn Ha Hb.
  assert (E : Z.lor a b = Z.lor a b mod 2 ^ n).
  { rewrite <- Z.land_ones by assumption.
    rewrite Z.land_lor_distr_l, !Z.land_ones by assumption.
    rewrite !Z.mod_small by assumption. reflexivity. }
  rewrite E. apply Z.mod_pos_bound. lia.
Qed.

Lemma uint32_range (z : Z) : 0 <= uint32 z < 2 ^ 32.
Proof. unfold uint32. apply Z.mod_pos_bound. lia. Qed.

Lemma uint32_testbit (z n : Z) :
  0 <= n -> Z.testbit (uint32 z) n = (n <? 32) && Z.testbit z n.
Proof.
  intros Hn. unfold uint32.
  destruct (Z.ltb_spec n 32).
  - now rewrite Z.mod_pow2_bits_low by lia.
  - now rewrite Z.mod_pow2_bits_high by lia.
Qed.

(** ** Memory offset mapper *)

Lemma offset_check_all : forallb offset_check (map Z.of_nat (seq 0 256)) = true.
Proof. vm_compute. reflexivity. Qed.

(** C2. For every line index that fits in 8 bits (so in particular for the
    192 display lines), [hires_line_to_mem_offset] returns exactly the value
    of the documented interleave formula, and that value is a byte offset
    inside the 8192-byte bitmap page. *)
Theorem hires_line_to_mem_offset_spec (line : Z) :
  0 <= line < 256 ->
  hires_line_to_mem_offset line = spec_memory_offset line
  /\ 0 <= hires_line_to_mem_offset line < 8192.
Proof.
  intros H.
  pose proof (Z_range_forallb offset_check 256 offset_check_all line H) as C.
  unfold offset_check in C.
  apply andb_prop in C. destruct C as [C C3].
  apply andb_prop in C. destruct C as [C1 C2].
  apply Z.eqb_eq in C1. apply Z.leb_le in C2. apply Z.ltb_lt in C3.
  auto.
Qed.

Lemma hires_line_to_mem_offset_spec_witness :
  hires_line_to_mem_offset 191 = spec_memory_offset 191
  /\ 0 <= hires_line_to_mem_offset 191 < 8192.
Proof. apply (hires_line_to_mem_offset_spec 191). lia. Defined.

(** ** Page selection *)

Lemma PAGE2SEL_bits (sw : Z) :
  PAGE2SEL sw = Z.testbit sw 3 && negb (Z.testbit sw 8).
Proof.
  unfold PAGE2SEL, SOFTSW_80STORE, SOFTSW_PAGE_2.
  rewrite Z.land_lor_distr_r.
  change 256 with (2 ^ 8). change 8 with (2 ^ 3) at 2 3.
  rewrite !land_pow2_cases by lia.
  destruct (Z.testbit sw 3), (Z.testbit sw 8); reflexivity.
Qed.

Lemma softsw_bit (sw k : Z) :
  0 <= k -> (Z.land sw (2 ^ k) <> 0 <-> Z.testbit sw k = true).
Proof.
  intros Hk. rewrite land_pow2_cases by assumption.
  assert (0 < 2 ^ k) by (apply Z.pow_pos_nonneg; lia).
  destruct (Z.testbit sw k); split; intros; try congruence; lia.
Qed.

Lemma render_lines_nth {tables : HiresTables} (fuel : nat) (dev : nat -> device)
    (n line : nat) :
  (line < n)%nat ->
  nth line (render_lines fuel dev n) None =
  render_hires_line fuel (mono_rendering (dev line)) (apple_memory (dev line))
    (PAGE2SEL (soft_switches (dev line))) (Z.of_nat line).
Proof.
  intros H. unfold render_lines.
  set (f := fun l : nat =>
    render_hires_line fuel (mono_rendering (dev l)) (apple_memory (dev l))
      (PAGE2SEL (soft_switches (dev l))) (Z.of_nat l)).
  rewrite nth_indep with (d' := f 0%nat)
    by (rewrite length_map, length_seq; exact H).
  rewrite (map_nth f), seq_nth by exact H. reflexivity.
Qed.




(** C5, as the code has it.  With the PAGE_2 bit set and the 80STORE bit
    clear, every line of the frame is read from page 2 ([hgr_p2]): the frame
    orchestrator passes [p2 = true] to the scanline producer. *)
Theorem page2_bit_without_80store_selects_page2 {tables : HiresTables}
    (fuel : nat) (dev : nat -> device) (line : nat) :
  (line < 192)%nat ->
  Z.land (soft_switches (dev line)) SOFTSW_PAGE_2 <> 0 ->
  Z.land (soft_switches (dev line)) SOFTSW_80STORE = 0 ->
  PAGE2SEL (soft_switches (dev line)) = true
  /\ nth line (render_hires fuel dev) None =
     render_hires_line fuel (mono_rendering (dev line))
       (apple_memory (dev line)) true (Z.of_nat line)
  /\ line_mem_addr (PAGE2SEL (soft_switches (dev line))) (Z.of_nat line) =
     hgr_p2 + hires_line_to_mem_offset (Z.of_nat line).
Proof.
  intros Hl H3 H8.
  assert (E : PAGE2SEL (soft_switches (dev line)) = true).
  { rewrite PAGE2SEL_bits.
    apply (softsw_bit _ 3 ltac:(lia)) in H3. rewrite H3.
    destruct (Z.testbit (soft_switches (dev line)) 8) eqn:T; [|reflexivity].
    exfalso.
    assert (Z.land (soft_switches (dev line)) (2 ^ 8) <> 0)
      by (apply softsw_bit; [lia|exact T]).
    contradiction. }
  split; [exact E|]. split.
  - unfold render_hires. rewrite render_lines_nth by exact Hl.
    rewrite E. reflexivity.
  - rewrite E. reflexivity.
Qed.

Lemma page2_bit_without_80store_selects_page2_witness :
  let dev := fun _ : nat =>
    {| soft_switches := Z.lor SOFTSW_HIRES_MODE SOFTSW_PAGE_2;
       mono_rendering := false;
       apple_memory := repeat 0 (Z.to_nat MAX_ADDRESS) |} in
  PAGE2SEL (soft_switches (dev 5%nat)) = true
  /\ nth 5 (render_hires (tables := demo_tables) 7 dev) None =
     render_hires_line (tables := demo_tables) 7 (mono_rendering (dev 5%nat))
       (apple_memory (dev 5%nat)) true (Z.of_nat 5)
  /\ line_mem_addr (PAGE2SEL (soft_switches (dev 5%nat))) (Z.of_nat 5) =
     hgr_p2 + hires_line_to_mem_offset (Z.of_nat 5).
Proof.
  intro dev.
  apply (page2_bit_without_80store_selects_page2 (tables := demo_tables) 7 dev 5).
  - lia.
  - vm_compute. discriminate.
  - vm_compute. reflexivity.
Defined.

(** C5, as the design document words it, fails: with softswitches = PAGE_2
    only, the page read is page 2, not page 1. *)
Lemma page1_not_selected_counterexample :
  Z.land SOFTSW_PAGE_2 SOFTSW_PAGE_2 <> 0
  /\ Z.land SOFTSW_PAGE_2 SOFTSW_80STORE = 0
  /\ PAGE2SEL SOFTSW_PAGE_2 = true
  /\ hgr_base (PAGE2SEL SOFTSW_PAGE_2) = hgr_p2
  /\ hgr_base (PAGE2SEL SOFTSW_PAGE_2) <> hgr_p1
  /\ ~ (forall sw : Z,
          Z.land sw SOFTSW_PAGE_2 <> 0 -> Z.land sw SOFTSW_80STORE = 0 ->
          hgr_base (PAGE2SEL sw) = hgr_p1).
Proof.
  repeat split; try (vm_compute; congruence).
  intros H. specialize (H SOFTSW_PAGE_2).
  assert (C : hgr_base (PAGE2SEL SOFTSW_PAGE_2) = hgr_p1)
    by (apply H; vm_compute; congruence).
  vm_compute in C. discriminate.
Qed.

(** ** Loops *)

Lemma for_loop_empty {S : Type} (lo : nat) (body : nat -> S -> S) (s : S) :
  for_loop lo lo body s = s.
Proof. unfold for_loop. now rewrite Nat.sub_diag. Qed.

Lemma for_loop_snoc {S : Type} (lo hi : nat) (body : nat -> S -> S) (s : S) :
  (lo <= hi)%nat ->
  for_loop lo (Datatypes.S hi) body s = body hi (for_loop lo hi body s).
Proof.
  intros H. unfold for_loop.
  replace (Datatypes.S hi - lo)%nat with (Datatypes.S (hi - lo)) by lia.
  rewrite seq_S, fold_left_app. simpl.
  now replace (lo + (hi - lo))%nat with hi by lia.
Qed.

(** Loop invariant rule: [P i] holds on entry to the pass with counter [i]. *)
Lemma for_loop_invariant {S : Type} (P : nat -> S -> Prop)
    (lo hi : nat) (body : nat -> S -> S) (s : S) :
  (lo <= hi)%nat ->
  P lo s ->
  (forall i st, (lo <= i < hi)%nat -> P i st -> P (Datatypes.S i) (body i st)) ->
  P hi (for_loop lo hi body s).
Proof.
  intros Hle H0 Hstep. induction hi as [|hi IH].
  - assert (lo = 0%nat) by lia. subst. now rewrite for_loop_empty.
  - destruct (Nat.eq_dec lo (Datatypes.S hi)) as [->|Hne].
    + now rewrite for_loop_empty.
    + rewrite for_loop_snoc by lia. apply Hstep; [lia|].
      apply IH; [lia|]. intros i st Hi. apply Hstep. lia.
Qed.

Lemma for_loop_opt_empty {S : Type} (lo : nat) (body : nat -> S -> option S) (s : S) :
  for_loop_opt lo lo body s = Some s.
Proof. unfold for_loop_opt. now rewrite Nat.sub_diag. Qed.

Lemma for_loop_opt_snoc {S : Type} (lo hi : nat)
    (body : nat -> S -> option S) (s : S) :
  (lo <= hi)%nat ->
  for_loop_opt lo (Datatypes.S hi) body s =
  match for_loop_opt lo hi body s with
  | Some a => body hi a
  | None => None
  end.
Proof.
  intros H. unfold for_loop_opt.
  replace (Datatypes.S hi - lo)%nat with (Datatypes.S (hi - lo)) by lia.
  rewrite seq_S, fold_left_app. simpl.
  now replace (lo + (hi - lo))%nat with hi by lia.
Qed.

(** ** Color path *)

Lemma oddness_after_S (n : nat) :
  uint32 (Z.lxor (oddness_after n) 0x100) = oddness_after (S n).
Proof.
  unfold oddness_after. rewrite Nat.even_succ, <- Nat.negb_even.
  destruct (Nat.even n); reflexivity.
Qed.

Lemma land_0xff_range (z : Z) : 0 <= Z.land z 0xff < 256.
Proof.
  change 0xff with (Z.ones 8). rewrite Z.land_ones by lia.
  apply Z.mod_pos_bound. lia.
Qed.

Section ColorPath.
Context {tables : HiresTables}.

Lemma color_consume_length (j : nat) (st : color_st) :
  length (c_out (color_consume j st)) = S (length (c_out st)).
Proof.
  unfold color_consume. cbn [c_out]. rewrite length_app. cbn [length]. lia.
Qed.

Lemma color_consume_inv (j : nat) (st : color_st) :
  color_inv st -> color_inv (color_consume j st).
Proof.
  intros [Ho Hk]. split.
  - rewrite color_consume_length. unfold color_consume. cbn [c_oddness].
    rewrite Ho. apply oddness_after_S.
  - intros k e. unfold color_consume. cbn [c_out]. intros Hn.
    destruct (Nat.lt_ge_cases k (length (c_out st))) as [Hlt|Hge].
    + rewrite nth_error_app1 in Hn by exact Hlt. now apply Hk.
    + rewrite nth_error_app2 in Hn by exact Hge.
      destruct (k - length (c_out st))%nat as [|m] eqn:E.
      * cbn [nth_error] in Hn.
        apply (f_equal (fun o => match o with Some x => x | None => e end))
          in Hn.
        cbv beta iota in Hn. rewrite <- Hn.
        split; cbn [e_oddness e_window].
        -- rewrite Ho. f_equal. lia.
        -- apply land_0xff_range.
      * cbn [nth_error] in Hn. destruct m; discriminate.
Qed.

Lemma color_consume_low_clear (j : nat) (st : color_st) (n : Z) :
  low_clear n (c_dots st) -> low_clear (n + 2) (c_dots (color_consume j st)).
Proof.
  intros H i Hi. unfold color_consume. cbn [c_dots].
  rewrite uint32_testbit, Z.shiftl_spec by lia.
  destruct (Z.ltb_spec (i - 2) 0).
  - rewrite Z.testbit_neg_r by assumption. apply andb_false_r.
  - rewrite H by lia. apply andb_false_r.
Qed.

(** The inner loop: seven stores, the window moved up by 14 bits. *)
Lemma color_inner_loop (st : color_st) (n : Z) :
  color_inv st -> low_clear n (c_dots st) ->
  let st' := for_loop 0 7 color_consume st in
  color_inv st'
  /\ length (c_out st') = (length (c_out st) + 7)%nat
  /\ low_clear (n + 14) (c_dots st').
Proof.
  intros Hinv Hlow.
  pose (P := fun (j : nat) (s : color_st) =>
    color_inv s
    /\ length (c_out s) = (length (c_out st) + j)%nat
    /\ low_clear (n + 2 * Z.of_nat j) (c_dots s)).
  assert (HP : P 7%nat (for_loop 0 7 color_consume st)).
  { apply for_loop_invariant; [lia| |].
    - unfold P. split; [exact Hinv|]. split; [lia|].
      intros i Hi. apply Hlow. lia.
    - intros j s _ (Hi & Hl & Hc). unfold P. split; [|split].
      + now apply color_consume_inv.
      + rewrite color_consume_length. lia.
      + replace (n + 2 * Z.of_nat (S j)) with (n + 2 * Z.of_nat j + 2) by lia.
        now apply color_consume_low_clear. }
  exact HP.
Qed.

Lemma color_step_length (b : Z) (st : color_st) :
  length (c_out (color_step b st)) = (length (c_out st) + 7)%nat.
Proof.
  unfold color_step.
  set (st1 := {| c_oddness := c_oddness st;
                 c_dots := color_merge b (c_dots st);
                 c_out := c_out st |}).
  change (c_out st) with (c_out st1).
  apply (for_loop_invariant
           (fun j s => length (c_out s) = (length (c_out st1) + j)%nat));
    [lia|lia|].
  intros j s _ H. rewrite color_consume_length. lia.
Qed.

Lemma color_extend_bits (b dots n : Z) :
  0 <= n ->
  Z.testbit (color_extend b dots) n =
  if n =? 14 then Z.testbit dots 14 || (Z.testbit b 7 && Z.testbit dots 15)
  else Z.testbit dots n.
Proof.
  intros Hn. unfold color_extend.
  change 0x80 with (2 ^ 7). rewrite land_pow2_cases by lia.
  destruct (Z.testbit b 7); cbn [andb];
    [change (2 ^ 7 =? 0) with false|change (0 =? 0) with true]; cbv iota.
  - rewrite Z.lor_spec, Z.shiftr_spec, Z.land_spec by assumption.
    change (Z.shiftl 1 15) with (2 ^ 15). rewrite Z.pow2_bits_eqb by lia.
    destruct (Z.eqb_spec n 14) as [->|Hne].
    + change (15 =? 14 + 1) with true. now rewrite andb_true_r.
    + destruct (Z.eqb_spec 15 (n + 1)); [lia|].
      now rewrite andb_false_r, orb_false_r.
  - destruct (Z.eqb_spec n 14) as [->|]; [now rewrite orb_false_r|reflexivity].
Qed.

Lemma color_merge_low_clear (b dots : Z) :
  low_clear 15 dots -> low_clear 1 (color_merge b dots).
Proof.
  intros H i Hi. assert (i = 0) by lia. subst i.
  unfold color_merge.
  rewrite Z.lor_spec, color_extend_bits by lia.
  change (0 =? 14) with false. cbv iota.
  rewrite H by lia.
  rewrite uint32_testbit, Z.shiftl_spec by lia.
  now rewrite Z.testbit_neg_r by lia.
Qed.

Lemma color_step_inv (b : Z) (st : color_st) :
  color_inv st -> low_clear 15 (c_dots st) ->
  color_inv (color_step b st) /\ low_clear 15 (c_dots (color_step b st)).
Proof.
  intros Hinv Hlow. unfold color_step.
  set (st1 := {| c_oddness := c_oddness st;
                 c_dots := color_merge b (c_dots st);
                 c_out := c_out st |}).
  destruct (color_inner_loop st1 1) as (Hi & _ & Hc).
  - exact Hinv.
  - subst st1. cbn [c_dots]. now apply color_merge_low_clear.
  - split; assumption.
Qed.

Lemma color_init_inv (line_mem : list Z) :
  color_inv (color_init line_mem) /\ low_clear 15 (c_dots (color_init line_mem)).
Proof.
  split.
  - split; [reflexivity|]. intros [|k] e; discriminate.
  - intros i Hi. unfold color_init, color_seed. cbn [c_dots].
    rewrite uint32_testbit, Z.shiftl_spec by lia.
    rewrite (Z.testbit_neg_r _ (i - 15)) by lia. apply andb_false_r.
Qed.

(** On entry to every pass of the outer loop: [7 * k] stores made so far,
    oddness consistent with that count, bits 0..14 of the window clear. *)
Lemma color_prefix_inv (line_mem : list Z) (k : nat) :
  let st := color_prefix line_mem k in
  color_inv st
  /\ length (c_out st) = (7 * k)%nat
  /\ low_clear 15 (c_dots st).
Proof.
  unfold color_prefix.
  pose (P := fun (i : nat) (s : color_st) =>
    color_inv s /\ length (c_out s) = (7 * (i - 1))%nat
    /\ low_clear 15 (c_dots s)).
  assert (HP : P (1 + k)%nat
                 (for_loop 1 (1 + k) (color_iter line_mem) (color_init line_mem))).
  { apply for_loop_invariant; [lia| |].
    - destruct (color_init_inv line_mem) as [A B].
      split; [exact A|]. split; [reflexivity|exact B].
    - intros i s Hi (A & B & C). unfold color_iter.
      destruct (color_step_inv (color_byte line_mem i) s A C) as [A' C'].
      split; [exact A'|]. split; [|exact C'].
      rewrite color_step_length, B. lia. }
  destruct HP as (A & B & C).
  split; [exact A|]. split; [rewrite B; lia|exact C].
Qed.

Lemma render_color_prefix (line_mem : list Z) :
  render_color line_mem = color_prefix line_mem 40.
Proof. reflexivity. Qed.

Lemma color_prefix_S (line_mem : list Z) (k : nat) :
  color_prefix line_mem (S k) =
  color_step (color_byte line_mem (1 + k)) (color_prefix line_mem k).
Proof.
  unfold color_prefix.
  change (1 + S k)%nat with (S (1 + k)).
  rewrite for_loop_snoc by lia. reflexivity.
Qed.

End ColorPath.

Section ColorClaims.
Context {tables : HiresTables}.

Lemma render_color_inv (line_mem : list Z) :
  color_inv (render_color line_mem)
  /\ length (c_out (render_color line_mem)) = 280%nat.
Proof.
  rewrite render_color_prefix.
  destruct (color_prefix_inv line_mem 40) as (A & B & _).
  split; [exact A|exact B].
Qed.

(** C1. For every 40-byte scanline the color path makes exactly 280 stores
    to each channel buffer (280 symbol triples); the first store is made
    with oddness 0 and every store is made with the oddness of its
    predecessor toggled, so the oddness alternates along the whole line. *)
Theorem color_path_emits_280_alternating (line_mem : list Z) :
  scanline line_mem ->
  let out := c_out (render_color line_mem) in
  length out = 280%nat
  /\ length (map color_triple out) = 280%nat
  /\ (forall k, (k < 280)%nat ->
        exists e, nth_error out k = Some e
                  /\ e_oddness e = (if Nat.even k then 0 else 0x100))
  /\ (forall k e e',
        nth_error out k = Some e -> nth_error out (S k) = Some e' ->
        e_oddness e' = Z.lxor (e_oddness e) 0x100
        /\ e_oddness e' <> e_oddness e)
  /\ (forall fuel apple_memory p2 line,
        read_line_mem apple_memory p2 line = line_mem ->
        exists ts,
          render_hires_line fuel false apple_memory p2 line = Some ts
          /\ length ts = 280%nat).
Proof.
  intros _ out.
  destruct (render_color_inv line_mem) as [[_ Hk] Hlen].
  fold out in Hk, Hlen.
  split; [exact Hlen|]. split; [now rewrite length_map|].
  split; [|split].
  3:{ intros fuel mem p2 line E. unfold render_hires_line. rewrite E.
      eexists. split; [reflexivity|]. now rewrite length_map. }
  - intros k Hlt. destruct (nth_error out k) as [e|] eqn:E.
    + exists e. split; [reflexivity|]. apply (Hk k e E).
    + apply nth_error_None in E. lia.
  - intros k e e' E E'.
    destruct (Hk k e E) as [O _]. destruct (Hk (S k) e' E') as [O' _].
    rewrite O, O'. unfold oddness_after.
    rewrite Nat.even_succ, <- Nat.negb_even.
    destruct (Nat.even k); split; (reflexivity || discriminate).
Qed.

Lemma scanline_demo_line : scanline demo_line.
Proof.
  split; [reflexivity|].
  apply Forall_forall. intros b Hb. unfold demo_line in Hb.
  apply in_map_iff in Hb. destruct Hb as (n & <- & Hn).
  apply in_seq in Hn. lia.
Qed.

(** Every index used on the color tables is below 512. *)
Lemma color_indices_in_range (line_mem : list Z) :
  Forall (fun e => 0 <= dot_pattern e < 512) (c_out (render_color line_mem)).
Proof.
  destruct (render_color_inv line_mem) as [[_ Hk] _].
  apply Forall_forall. intros e Hin.
  apply In_nth_error in Hin. destruct Hin as [k Hk'].
  destruct (Hk k e Hk') as [O W]. unfold dot_pattern.
  change 512 with (2 ^ 9). apply lor_lt_pow2; [lia| |].
  - rewrite O. unfold oddness_after. destruct (Nat.even k); lia.
  - change (2 ^ 9) with 512. lia.
Qed.

Lemma extend_no_bleed (b dots : Z) :
  Z.land b 0x80 = 0 -> color_extend b dots = dots.
Proof. intros H. unfold color_extend. now rewrite H. Qed.

Lemma land_0x80_bit (b : Z) : Z.land b 0x80 <> 0 <-> Z.testbit b 7 = true.
Proof. apply (softsw_bit b 7). lia. Qed.

Lemma extend_one_bit (b dots : Z) :
  Z.testbit dots 14 = false ->
  color_extend b dots =
  dots + (if Z.testbit b 7 && Z.testbit dots 15 then 2 ^ 14 else 0).
Proof.
  intros H14. unfold color_extend.
  change 0x80 with (2 ^ 7). rewrite land_pow2_cases by lia.
  destruct (Z.testbit b 7); cbn [andb];
    [change (2 ^ 7 =? 0) with false|change (0 =? 0) with true]; cbv iota.
  - change (Z.shiftl 1 15) with (2 ^ 15). rewrite land_pow2_cases by lia.
    destruct (Z.testbit dots 15).
    + change (Z.shiftr (2 ^ 15) 1) with (2 ^ 14).
      assert (D : Z.land dots (2 ^ 14) = 0)
        by (rewrite land_pow2_cases, H14 by lia; reflexivity).
      rewrite Z.add_nocarry_lxor, Z.lxor_lor by exact D. reflexivity.
    + change (Z.shiftr 0 1) with 0. rewrite Z.lor_0_r. lia.
  - lia.
Qed.

Lemma uint32_shiftl_shiftl (d a b : Z) :
  0 <= a -> 0 <= b ->
  uint32 (Z.shiftl (uint32 (Z.shiftl d a)) b) = uint32 (Z.shiftl d (a + b)).
Proof.
  intros Ha Hb. unfold uint32.
  rewrite !Z.shiftl_mul_pow2 by lia.
  rewrite Z.mul_mod_idemp_l by lia.
  rewrite Z.pow_add_r by lia. f_equal. ring.
Qed.

Lemma color_step_dots (b : Z) (st : color_st) :
  c_dots (color_step b st) =
  uint32 (Z.shiftl (color_merge b (c_dots st)) 14).
Proof.
  unfold color_step, for_loop.
  cbn [Nat.sub seq fold_left color_consume c_dots].
  rewrite !uint32_shiftl_shiftl by lia. reflexivity.
Qed.

Lemma fold_color_step_length (bs : list Z) (st : color_st) :
  length (c_out (fold_left (fun s b => color_step b s) bs st)) =
  (length (c_out st) + 7 * length bs)%nat.
Proof.
  revert st. induction bs as [|b bs IH]; intros st; cbn [fold_left length].
  - lia.
  - rewrite IH, color_step_length. lia.
Qed.

Lemma for_loop_as_fold_bytes (line_mem : list Z) (idx : list nat) (st : color_st) :
  fold_left (fun acc i => color_iter line_mem i acc) idx st =
  fold_left (fun s b => color_step b s) (map (color_byte line_mem) idx) st.
Proof.
  revert st. induction idx as [|i idx IH]; intros st; [reflexivity|].
  cbn [map fold_left]. apply IH.
Qed.

Lemma color_bytes_of_line (line_mem : list Z) :
  length line_mem = 40%nat ->
  map (color_byte line_mem) (seq 1 (41 - 1)) = skipn 1 line_mem ++ [0].
Proof.
  intros H.
  do 40 (destruct line_mem as [|? line_mem];
         [cbn [length] in H; discriminate H|]).
  destruct line_mem; [reflexivity|cbn [length] in H; discriminate H].
Qed.

(** C4, as the code has it.  The window is seeded with the pattern of byte 0
    shifted up by 15; the outer loop then makes 40 passes, over the bytes at
    indices 1..39 followed by one synthetic zero byte; each pass merges one
    byte, makes seven stores and moves the window up by 14 bits. *)
Theorem color_path_makes_40_passes (line_mem : list Z) :
  scanline line_mem ->
  render_color line_mem =
    fold_left (fun s b => color_step b s) (skipn 1 line_mem ++ [0])
      (color_init line_mem)
  /\ length (skipn 1 line_mem ++ [0]) = 40%nat
  /\ color_init line_mem =
     {| c_oddness := 0;
        c_dots := uint32 (Z.shiftl
                    (uint32 (hires_dot_patterns (byte_at line_mem 0))) 15);
        c_out := [] |}
  /\ (forall b s,
        length (c_out (color_step b s)) = (length (c_out s) + 7)%nat
        /\ c_dots (color_step b s) =
           uint32 (Z.shiftl (color_merge b (c_dots s)) 14))
  /\ length (c_out (render_color line_mem)) = (40 * 7)%nat.
Proof.
  intros [Hlen _]. split; [|split; [|split; [|split]]].
  - unfold render_color, for_loop.
    rewrite for_loop_as_fold_bytes, color_bytes_of_line by exact Hlen.
    reflexivity.
  - rewrite length_app, length_skipn, Hlen. reflexivity.
  - reflexivity.
  - intros b s. split; [apply color_step_length|apply color_step_dots].
  - apply render_color_inv.
Qed.

End ColorClaims.

Lemma color_path_emits_280_alternating_witness :
  let out := c_out (render_color (tables := demo_tables) demo_line) in
  length out = 280%nat
  /\ length (map (color_triple (tables := demo_tables)) out) = 280%nat
  /\ (forall k, (k < 280)%nat ->
        exists e, nth_error out k = Some e
                  /\ e_oddness e = (if Nat.even k then 0 else 0x100))
  /\ (forall k e e',
        nth_error out k = Some e -> nth_error out (S k) = Some e' ->
        e_oddness e' = Z.lxor (e_oddness e) 0x100
        /\ e_oddness e' <> e_oddness e)
  /\ (forall fuel apple_memory p2 line,
        read_line_mem apple_memory p2 line = demo_line ->
        exists ts,
          render_hires_line (tables := demo_tables) fuel false
            apple_memory p2 line = Some ts
          /\ length ts = 280%nat).
Proof.
  apply (color_path_emits_280_alternating (tables := demo_tables) demo_line).
  exact scanline_demo_line.
Defined.

Lemma color_path_makes_40_passes_witness :
  render_color (tables := demo_tables) demo_line =
    fold_left (fun s b => color_step (tables := demo_tables) b s)
      (skipn 1 demo_line ++ [0]) (color_init (tables := demo_tables) demo_line)
  /\ length (skipn 1 demo_line ++ [0]) = 40%nat
  /\ color_init (tables := demo_tables) demo_line =
     {| c_oddness := 0;
        c_dots := uint32 (Z.shiftl
                    (uint32 (demo_dot_pattern (byte_at demo_line 0))) 15);
        c_out := [] |}
  /\ (forall b s,
        length (c_out (color_step (tables := demo_tables) b s))
        = (length (c_out s) + 7)%nat
        /\ c_dots (color_step (tables := demo_tables) b s) =
           uint32 (Z.shiftl (color_merge (tables := demo_tables) b (c_dots s)) 14))
  /\ length (c_out (render_color (tables := demo_tables) demo_line))
     = (40 * 7)%nat.
Proof.
  apply (color_path_makes_40_passes (tables := demo_tables) demo_line).
  exact scanline_demo_line.
Defined.

(** C4, as the design document words it, fails: 41 passes of seven stores
    would leave 287 stores, and the color path leaves 280.  The rendered
    line is not the result of any 41 merge-and-consume passes from the
    seed. *)
Lemma color_path_not_41_passes_counterexample :
  length (c_out (render_color (tables := demo_tables) demo_line)) = 280%nat
  /\ 280%nat <> (41 * 7)%nat
  /\ ~ (exists bs : list Z,
          length bs = 41%nat
          /\ render_color (tables := demo_tables) demo_line =
             fold_left (fun s b => color_step (tables := demo_tables) b s) bs
               (color_init (tables := demo_tables) demo_line)).
Proof.
  assert (L : length (c_out (render_color (tables := demo_tables) demo_line))
              = 280%nat) by apply (render_color_inv (tables := demo_tables)).
  split; [exact L|]. split; [lia|].
  intros (bs & Hbs & E). rewrite E, fold_color_step_length, Hbs in L.
  cbn [color_init c_out length] in L. lia.
Qed.

(** ** Monochrome path *)

Section MonoPath.
Context {tables : HiresTables}.

Lemma land_3_range (z : Z) : 0 <= Z.land z 0x3 < 4.
Proof.
  change 0x3 with (Z.ones 2). rewrite Z.land_ones by lia.
  apply Z.mod_pos_bound. lia.
Qed.

(** Draining an accumulator that holds [2 * n] dots takes [n] passes of the
    [while] loop and leaves none. *)
Lemma mono_consume_drains (n : nat) :
  forall (fuel : nat) (st : mono_st),
  m_dotc st = 2 * Z.of_nat n -> 2 * Z.of_nat n < 2 ^ 32 -> (n <= fuel)%nat ->
  Forall mono_index_ok (m_out st) ->
  exists st',
    mono_consume fuel st = Some st'
    /\ m_dotc st' = 0
    /\ m_lastmsb st' = m_lastmsb st
    /\ length (m_out st') = (length (m_out st) + n)%nat
    /\ Forall mono_index_ok (m_out st')
    /\ m_dots st' = Z.shiftr (m_dots st) (2 * Z.of_nat n).
Proof.
  induction n as [|n IH]; intros fuel st Hc Hb Hf Hok.
  - exists st. change (2 * Z.of_nat 0) with 0 in *.
    destruct fuel; cbn [mono_consume]; rewrite Hc; cbn [Z.eqb];
      (split; [reflexivity|]); rewrite Z.shiftr_0_r;
      repeat split; auto; lia.
  - destruct fuel as [|fuel]; [lia|].
    cbn [mono_consume].
    destruct (Z.eqb_spec (m_dotc st) 0) as [E|_]; [lia|].
    destruct (IH fuel (mono_emit st)) as (st' & R & D & M & L & O & S').
    + unfold mono_emit. cbn [m_dotc]. unfold uint_fast8.
      rewrite Hc, Z.mod_small by lia. lia.
    + lia.
    + lia.
    + unfold mono_emit. cbn [m_out]. apply Forall_app. split; [exact Hok|].
      constructor; [apply land_3_range|constructor].
    + exists st'. split; [exact R|]. split; [exact D|].
      split; [exact M|]. split; [|split; [exact O|]].
      * rewrite L. unfold mono_emit. cbn [m_out].
        rewrite length_app. cbn [length]. lia.
      * rewrite S'. unfold mono_emit. cbn [m_dots].
        rewrite Z.shiftr_shiftr by lia. f_equal. lia.
Qed.

(** One pass of the byte loop, entered with an empty accumulator. *)
Lemma mono_iter_from_empty (fuel : nat) (line_mem : list Z) (i : nat)
    (st : mono_st) :
  (7 <= fuel)%nat -> m_dotc st = 0 -> m_lastmsb st = 0 ->
  Forall mono_index_ok (m_out st) ->
  let ld := mono_load (byte_at line_mem i) st in
  m_dotc ld = 14 /\ m_lastmsb ld = 0
  /\ exists st',
       mono_iter fuel line_mem i st = Some st'
       /\ m_dotc st' = 0 /\ m_lastmsb st' = 0
       /\ length (m_out st') = (length (m_out st) + 7)%nat
       /\ Forall mono_index_ok (m_out st')
       /\ m_dots st' = Z.shiftr (m_dots ld) 14.
Proof.
  intros Hf Hc Hm Hok ld.
  assert (C : m_dotc ld = 14)
    by (subst ld; unfold mono_load; cbn [m_dotc]; rewrite Hc; reflexivity).
  assert (M : m_lastmsb ld = 0)
    by (subst ld; unfold mono_load; cbn [m_lastmsb]; rewrite Hc; reflexivity).
  split; [exact C|]. split; [exact M|].
  destruct (mono_consume_drains 7 fuel ld) as (st' & R & D & M' & L & O & S');
    [rewrite C; reflexivity|reflexivity|exact Hf|exact Hok|].
  exists st'. split; [exact R|]. split; [exact D|].
  split; [now rewrite M'|]. split; [exact L|]. split; [exact O|exact S'].
Qed.

(** On entry to every pass of the byte loop the accumulator is empty and
    [lastmsb] is 0. *)
Lemma mono_prefix_inv (fuel : nat) (line_mem : list Z) (k : nat) :
  (7 <= fuel)%nat ->
  exists st,
    mono_prefix fuel line_mem k = Some st
    /\ m_dotc st = 0 /\ m_lastmsb st = 0
    /\ length (m_out st) = (7 * k)%nat
    /\ Forall mono_index_ok (m_out st).
Proof.
  intros Hf. unfold mono_prefix. induction k as [|k IH].
  - exists mono_init. rewrite for_loop_opt_empty.
    repeat split; try reflexivity. constructor.
  - destruct IH as (st & R & C & M & L & O).
    rewrite for_loop_opt_snoc, R by lia.
    destruct (mono_iter_from_empty fuel line_mem k st Hf C M O)
      as (_ & _ & st' & R' & C' & M' & L' & O' & _).
    exists st'. split; [exact R'|]. split; [exact C'|]. split; [exact M'|].
    split; [lia|exact O'].
Qed.

Lemma mono_prefix_S (fuel : nat) (line_mem : list Z) (k : nat) (st : mono_st) :
  mono_prefix fuel line_mem k = Some st ->
  mono_prefix fuel line_mem (S k) = mono_iter fuel line_mem k st.
Proof.
  intros H. unfold mono_prefix in *.
  now rewrite for_loop_opt_snoc, H by lia.
Qed.

(** With 14-bit table entries the accumulator value itself is 0 between
    bytes, not only its dot count. *)
Lemma mono_prefix_dots_zero (fuel : nat) (line_mem : list Z) (k : nat) :
  (7 <= fuel)%nat ->
  (forall i, 0 <= hires_dot_patterns2 i < 2 ^ 14) ->
  exists st, mono_prefix fuel line_mem k = Some st /\ m_dots st = 0.
Proof.
  intros Hf Ht. induction k as [|k IH].
  - exists mono_init. split; [apply for_loop_opt_empty|reflexivity].
  - destruct IH as (st & R & Z0).
    destruct (mono_prefix_inv fuel line_mem k Hf) as (st0 & R0 & C & M & _ & O).
    rewrite R in R0. injection R0 as <-.
    destruct (mono_iter_from_empty fuel line_mem k st Hf C M O)
      as (_ & _ & st' & R' & _ & _ & _ & _ & S').
    exists st'. split; [rewrite (mono_prefix_S _ _ _ _ R); exact R'|].
    rewrite S'. unfold mono_load. cbn [m_dots].
    rewrite Z0, C, Z.lor_0_l, Z.shiftl_0_r.
    set (p := hires_dot_patterns2 _).
    assert (Hp : 0 <= p < 2 ^ 14) by apply Ht.
    unfold uint32. rewrite !(Z.mod_small p (2 ^ 32)) by lia.
    apply Z.shiftr_eq_0; [lia|].
    destruct (Z.eq_dec p 0) as [->|]; [reflexivity|].
    apply Z.log2_lt_pow2; lia.
Qed.


(** C10. On entry to each of the 40 passes of the byte loop the dot count
    is 0 and [lastmsb] is 0, and the pass leaves [lastmsb] at 0 again.  Bit 8
    is therefore never set in the index of the [hires_dot_patterns2] lookup:
    the index is the source byte itself, a value below 256. *)
Theorem mono_lastmsb_always_zero (fuel : nat) (line_mem : list Z) (k : nat) :
  scanline line_mem -> (7 <= fuel)%nat -> (k < 40)%nat ->
  exists st,
    mono_prefix fuel line_mem k = Some st
    /\ m_dotc st = 0
    /\ m_lastmsb st = 0
    /\ m_lastmsb (mono_load (byte_at line_mem k) st) = 0
    /\ mono_pattern_index st (byte_at line_mem k) = byte_at line_mem k
    /\ 0 <= mono_pattern_index st (byte_at line_mem k) < 256
    /\ Z.testbit (mono_pattern_index st (byte_at line_mem k)) 8 = false.
Proof.
  intros [Hlen Hbytes] Hf Hk.
  destruct (mono_prefix_inv fuel line_mem k Hf) as (st & R & C & M & L & O).
  destruct (mono_iter_from_empty fuel line_mem k st Hf C M O) as (_ & M1 & _).
  assert (Hb : 0 <= byte_at line_mem k < 256).
  { rewrite Forall_forall in Hbytes. apply Hbytes.
    unfold byte_at. apply nth_In. lia. }
  assert (E : mono_pattern_index st (byte_at line_mem k) = byte_at line_mem k)
    by (unfold mono_pattern_index; rewrite M; apply Z.lor_0_l).
  exists st. split; [exact R|]. split; [exact C|]. split; [exact M|].
  split; [exact M1|]. split; [exact E|]. rewrite E. split; [exact Hb|].
  destruct (Z.eq_dec (byte_at line_mem k) 0) as [->|Hnz]; [reflexivity|].
  apply Z.bits_above_log2; [lia|].
  apply Z.log2_lt_pow2; lia.
Qed.

(** C8. Every index the decoder uses on an output table is inside the
    table: color-path indices are below 512 (256 window values, two oddness
    states) and monochrome-path indices are below 4, whatever the bytes of
    the line are. *)
Theorem table_indices_in_range (fuel : nat) (line_mem : list Z) :
  (7 <= fuel)%nat ->
  Forall (fun e => 0 <= dot_pattern e < 512
                   /\ 0 <= e_window e < 256
                   /\ (e_oddness e = 0 \/ e_oddness e = 0x100))
         (c_out (render_color line_mem))
  /\ exists st,
       render_mono fuel line_mem = Some st
       /\ Forall (fun i => 0 <= i < 4) (m_out st)
       /\ length hires_mono_patterns_red = 4%nat
       /\ length hires_mono_patterns_green = 4%nat
       /\ length hires_mono_patterns_blue = 4%nat.
Proof.
  intros Hf. split.
  - pose proof (color_indices_in_range line_mem) as Hin.
    destruct (render_color_inv line_mem) as [[_ Hk] _].
    rewrite Forall_forall in *. intros e He.
    split; [now apply Hin|].
    apply In_nth_error in He. destruct He as [k Hke].
    destruct (Hk k e Hke) as [O W]. split; [exact W|].
    rewrite O. unfold oddness_after. destruct (Nat.even k); auto.
  - destruct (mono_prefix_inv fuel line_mem 40 Hf) as (st & R & _ & _ & _ & O).
    exists st. split; [exact R|]. split; [exact O|]. repeat split.
Qed.

End MonoPath.


Lemma mono_lastmsb_always_zero_witness :
  exists st,
    mono_prefix (tables := demo_tables) 7 demo_line 25 = Some st
    /\ m_dotc st = 0
    /\ m_lastmsb st = 0
    /\ m_lastmsb (mono_load (tables := demo_tables) (byte_at demo_line 25) st) = 0
    /\ mono_pattern_index st (byte_at demo_line 25) = byte_at demo_line 25
    /\ 0 <= mono_pattern_index st (byte_at demo_line 25) < 256
    /\ Z.testbit (mono_pattern_index st (byte_at demo_line 25)) 8 = false.
Proof.
  apply (mono_lastmsb_always_zero (tables := demo_tables) 7 demo_line 25).
  - exact scanline_demo_line.
  - lia.
  - lia.
Defined.

Lemma table_indices_in_range_witness :
  Forall (fun e => 0 <= dot_pattern e < 512
                   /\ 0 <= e_window e < 256
                   /\ (e_oddness e = 0 \/ e_oddness e = 0x100))
         (c_out (render_color (tables := demo_tables) demo_line))
  /\ exists st,
       render_mono (tables := demo_tables) 7 demo_line = Some st
       /\ Forall (fun i => 0 <= i < 4) (m_out st)
       /\ length (hires_mono_patterns_red (tables := demo_tables)) = 4%nat
       /\ length (hires_mono_patterns_green (tables := demo_tables)) = 4%nat
       /\ length (hires_mono_patterns_blue (tables := demo_tables)) = 4%nat.
Proof.
  apply (table_indices_in_range (tables := demo_tables) 7 demo_line). lia.
Defined.

(** ** Configuration loader *)

Module ConfigProps.
Import Config.

Lemma SET_IFLAG_testbit (c : bool) (F f n : Z) :
  0 <= n < 32 ->
  Z.testbit (SET_IFLAG c F f) n =
  if c then Z.testbit f n || Z.testbit F n
  else Z.testbit f n && negb (Z.testbit F n).
Proof.
  intros Hn. unfold SET_IFLAG. destruct c.
  - rewrite uint32_testbit, Z.lor_spec by lia.
    destruct (Z.ltb_spec n 32); [reflexivity|lia].
  - rewrite uint32_testbit, Z.land_spec, Z.lnot_spec by lia.
    destruct (Z.ltb_spec n 32); [reflexivity|lia].
Qed.

Lemma IS_IFLAG_bit (f k : Z) :
  0 <= k -> IS_IFLAG f (2 ^ k) = Z.testbit f k.
Proof.
  intros Hk. unfold IS_IFLAG. rewrite land_pow2_cases by exact Hk.
  assert (0 < 2 ^ k) by (apply Z.pow_pos_nonneg; lia).
  destruct (Z.testbit f k); [apply Z.eqb_refl|apply Z.eqb_neq; lia].
Qed.

Section LoaderProps.
Context {platform : ConfigPlatform}.

(** [set_machine] only touches the two register-set bits. *)
Lemma set_machine_testbit (m : Z) (g : globals) (n : Z) :
  0 <= n < 30 ->
  Z.testbit (internal_flags (set_machine m g)) n = Z.testbit (internal_flags g) n.
Proof.
  intros Hn. unfold set_machine. cbn [internal_flags set_current_machine set_internal_flags].
  assert (B30 : forall F, F = IFLAGS_IIE_REGS \/ F = IFLAGS_IIGS_REGS ->
                          Z.testbit F n = false).
  { intros F HF.
    assert (0 <= F < 2 ^ 32 /\ F mod 2 ^ 30 = 0) as [HR HM]
      by (destruct HF as [->| ->]; vm_compute; repeat split; congruence).
    apply Z.mod_divide in HM; [|lia]. destruct HM as [q ->].
    rewrite Z.mul_pow2_bits by lia. apply Z.testbit_neg_r. lia. }
  repeat match goal with
         | |- context [if ?c then _ else _] => destruct c
         end;
    repeat (rewrite ?uint32_testbit, ?Z.lor_spec, ?Z.land_spec, ?Z.lnot_spec
              by lia);
    rewrite ?(B30 IFLAGS_IIE_REGS), ?(B30 IFLAGS_IIGS_REGS) by auto;
    destruct (Z.ltb_spec n 32); try lia;
    cbn [andb orb negb]; rewrite ?andb_true_r, ?orb_false_r; reflexivity.
Qed.

Lemma load_font_directory_keeps (dir : fontdir_t) (g : globals) :
  let g' := load_font_directory dir g in
  internal_flags g' = internal_flags g
  /\ detected_machine g' = detected_machine g
  /\ character_rom g' = character_rom g.
Proof.
  unfold load_font_directory.
  destruct (f_magic_word dir =? FONT_MAGIC_WORD_VALUE); repeat split.
Qed.

Lemma config_invalid_iff (cfg : config_t) :
  config_invalid cfg = true <->
  magic_word cfg <> CFG_MAGIC_WORD_VALUE \/ size cfg > FLASH_SECTOR_SIZE.
Proof.
  unfold config_invalid. rewrite orb_true_iff, negb_true_iff, Z.eqb_neq.
  rewrite Z.gtb_ltb, Z.ltb_lt. split; intros [H|H]; auto; right; lia.
Qed.

Lemma defaults_flag_bit (g : globals) (n : Z) :
  0 <= n < 30 ->
  Z.testbit (internal_flags (config_load_defaults g)) n =
  Z.testbit
    (SET_IFLAG false IFLAGS_TEST
       (SET_IFLAG false IFLAGS_VIDEO7
          (SET_IFLAG false IFLAGS_FORCED_MONO
             (SET_IFLAG false IFLAGS_DEBUG_LINES
                (SET_IFLAG true IFLAGS_SCANLINEEMU (internal_flags g)))))) n.
Proof.
  intros Hn. unfold config_load_defaults.
  cbn [internal_flags set_reload_charsets set_cfg_alt_charset
       set_cfg_local_charset set_enhanced_font_enabled
       set_language_switch_enabled].
  rewrite set_machine_testbit by exact Hn. reflexivity.
Qed.

(** C9. When the stored configuration is invalid (wrong magic word, or a
    recorded size above the flash sector size), [config_load] returns what
    [config_load_defaults] returns: the result does not depend on any
    field of the stored configuration, and every setting has its built-in
    default. *)
Theorem config_load_fails_closed (cfg : config_t) (dir : fontdir_t) (g : globals) :
  magic_word cfg <> CFG_MAGIC_WORD_VALUE \/ size cfg > FLASH_SECTOR_SIZE ->
  let g' := config_load cfg dir g in
  g' = config_load_defaults (load_font_directory dir g)
  /\ (forall cfg' : config_t,
        magic_word cfg' <> CFG_MAGIC_WORD_VALUE \/ size cfg' > FLASH_SECTOR_SIZE ->
        config_load cfg' dir g = g')
  /\ color_mode g' = COLOR_MODE_BW
  /\ cfg_machine g' = MACHINE_AUTO
  /\ current_machine g' = detected_machine g
  /\ language_switch_enabled g' = false
  /\ enhanced_font_enabled g' = true
  /\ cfg_local_charset g' = DEFAULT_LOCAL_CHARSET
  /\ cfg_alt_charset g' = DEFAULT_ALT_CHARSET
  /\ reload_charsets g' = 3
  /\ character_rom g' = character_rom g
  /\ IS_IFLAG (internal_flags g') IFLAGS_SCANLINEEMU = true
  /\ IS_IFLAG (internal_flags g') IFLAGS_DEBUG_LINES = false
  /\ IS_IFLAG (internal_flags g') IFLAGS_FORCED_MONO = false
  /\ IS_IFLAG (internal_flags g') IFLAGS_VIDEO7 = false
  /\ IS_IFLAG (internal_flags g') IFLAGS_TEST = false.
Proof.
  intros Hinv g'.
  assert (E : g' = config_load_defaults (load_font_directory dir g)).
  { subst g'. unfold config_load.
    apply config_invalid_iff in Hinv. now rewrite Hinv. }
  destruct (load_font_directory_keeps dir g) as (KF & KD & KR).
  split; [exact E|]. split.
  { intros cfg' Hinv'. rewrite E. unfold config_load.
    apply config_invalid_iff in Hinv'. now rewrite Hinv'. }
  rewrite E.
  split; [reflexivity|]. split; [reflexivity|].
  split; [exact KD|].
  split; [reflexivity|]. split; [reflexivity|].
  split; [reflexivity|]. split; [reflexivity|]. split; [reflexivity|].
  split; [exact KR|].
  change IFLAGS_SCANLINEEMU with (2 ^ 23).
  change IFLAGS_DEBUG_LINES with (2 ^ 20).
  change IFLAGS_FORCED_MONO with (2 ^ 22).
  change IFLAGS_VIDEO7 with (2 ^ 26).
  change IFLAGS_TEST with (2 ^ 29).
  rewrite !IS_IFLAG_bit by lia.
  rewrite !defaults_flag_bit by lia.
  rewrite !SET_IFLAG_testbit by lia.
  repeat split;
    repeat match goal with
           | |- context [Z.testbit ?c ?n] =>
               lazymatch c with
               | internal_flags _ => fail
               | _ => let v := eval vm_compute in (Z.testbit c n) in
                      change (Z.testbit c n) with v
               end
           end;
    cbn [negb andb orb];
    rewrite ?andb_true_r, ?andb_false_r, ?orb_true_r, ?orb_false_r;
    reflexivity.
Qed.

End LoaderProps.

Section LoaderSample.
#[local] Existing Instance demo_platform.

Lemma config_load_fails_closed_witness :
  let g' := config_load (platform := demo_platform)
              demo_erased_config demo_fontdir demo_globals in
  g' = config_load_defaults (load_font_directory demo_fontdir demo_globals)
  /\ (forall cfg' : config_t,
        magic_word cfg' <> CFG_MAGIC_WORD_VALUE \/ size cfg' > FLASH_SECTOR_SIZE ->
        config_load cfg' demo_fontdir demo_globals = g')
  /\ color_mode g' = COLOR_MODE_BW
  /\ cfg_machine g' = MACHINE_AUTO
  /\ current_machine g' = detected_machine demo_globals
  /\ language_switch_enabled g' = false
  /\ enhanced_font_enabled g' = true
  /\ cfg_local_charset g' = DEFAULT_LOCAL_CHARSET
  /\ cfg_alt_charset g' = DEFAULT_ALT_CHARSET
  /\ reload_charsets g' = 3
  /\ character_rom g' = character_rom demo_globals
  /\ IS_IFLAG (internal_flags g') IFLAGS_SCANLINEEMU = true
  /\ IS_IFLAG (internal_flags g') IFLAGS_DEBUG_LINES = false
  /\ IS_IFLAG (internal_flags g') IFLAGS_FORCED_MONO = false
  /\ IS_IFLAG (internal_flags g') IFLAGS_VIDEO7 = false
  /\ IS_IFLAG (internal_flags g') IFLAGS_TEST = false.
Proof.
  apply (config_load_fails_closed (platform := demo_platform)
           demo_erased_config demo_fontdir demo_globals).
  left. vm_compute. discriminate.
Defined.

End LoaderSample.

End ConfigProps.

(** * Further properties of the renderer *)

(** ** Layout of the display lines in a bitmap page *)

Lemma line_layout_check_all :
  forallb line_layout_check (map Z.of_nat (seq 0 192)) = true.
Proof. vm_compute. reflexivity. Qed.

Lemma line_ends_in_page (line : Z) :
  0 <= line < 192 ->
  0 <= hires_line_to_mem_offset line
  /\ hires_line_to_mem_offset line + 40 <= 8192.
Proof.
  intros H.
  pose proof (Z_range_forallb line_layout_check 192 line_layout_check_all
                line H) as C.
  unfold line_layout_check in C.
  apply andb_prop in C. destruct C as [C _].
  apply andb_prop in C. destruct C as [_ C2].
  apply Z.leb_le in C2. split; [|exact C2].
  unfold hires_line_to_mem_offset. apply uint32_range.
Qed.

(** X1. For each of the 192 display lines the offset has the arithmetic
    form 1024 * (line mod 8) + 128 * (line / 8 mod 8) + 40 * (line / 64),
    and the 40 bytes of the line end inside the 8192-byte page. *)
Theorem hires_line_within_page (line : Z) :
  0 <= line < 192 ->
  hires_line_to_mem_offset line = offset_arith line
  /\ 0 <= hires_line_to_mem_offset line
  /\ hires_line_to_mem_offset line + 40 <= 8192.
Proof.
  intros H.
  pose proof (Z_range_forallb line_layout_check 192 line_layout_check_all
                line H) as C.
  unfold line_layout_check in C.
  apply andb_prop in C. destruct C as [C _].
  apply andb_prop in C. destruct C as [C1 C2].
  apply Z.eqb_eq in C1. apply Z.leb_le in C2.
  split; [exact C1|]. split; [|exact C2].
  unfold hires_line_to_mem_offset. apply uint32_range.
Qed.

Lemma hires_line_within_page_witness :
  hires_line_to_mem_offset 100 = offset_arith 100
  /\ 0 <= hires_line_to_mem_offset 100
  /\ hires_line_to_mem_offset 100 + 40 <= 8192.
Proof. apply (hires_line_within_page 100). lia. Defined.

(** X2. Two different display lines never share a byte of the page: their
    40-byte ranges are disjoint. *)
Theorem hires_lines_disjoint (l1 l2 : Z) :
  0 <= l1 < 192 -> 0 <= l2 < 192 -> l1 <> l2 ->
  hires_line_to_mem_offset l1 + 40 <= hires_line_to_mem_offset l2
  \/ hires_line_to_mem_offset l2 + 40 <= hires_line_to_mem_offset l1.
Proof.
  intros H1 H2 Hne.
  pose proof (Z_range_forallb line_layout_check 192 line_layout_check_all
                l1 H1) as C.
  unfold line_layout_check in C.
  apply andb_prop in C. destruct C as [_ C].
  pose proof (Z_range_forallb (lines_apart l1) 192 C l2 H2) as A.
  unfold lines_apart in A.
  apply orb_prop in A. destruct A as [A|A].
  - apply orb_prop in A. destruct A as [A|A].
    + apply Z.eqb_eq in A. contradiction.
    + left. now apply Z.leb_le.
  - right. now apply Z.leb_le.
Qed.

Lemma hires_lines_disjoint_witness :
  hires_line_to_mem_offset 0 + 40 <= hires_line_to_mem_offset 64
  \/ hires_line_to_mem_offset 64 + 40 <= hires_line_to_mem_offset 0.
Proof. apply (hires_lines_disjoint 0 64); lia. Defined.

Lemma In_firstn_skipn {A : Type} (x : A) (n m : nat) (l : list A) :
  In x (firstn n (skipn m l)) -> In x l.
Proof.
  intros H.
  rewrite <- (firstn_skipn m l). apply in_or_app. right.
  rewrite <- (firstn_skipn n (skipn m l)). apply in_or_app. now left.
Qed.

Lemma Forall_repeat_byte (n : nat) :
  Forall (fun b => 0 <= b < 256) (repeat 0 n).
Proof.
  apply Forall_forall. intros b Hb. apply repeat_spec in Hb. lia.
Qed.

(** X3. With [apple_memory] of its declared size, the bytes of a display
    line are read inside the selected page, [hgr_base p2 .. hgr_base p2 +
    8192), which lies inside [apple_memory]; the line has 40 bytes, and byte
    [i] is the memory byte at [line_mem + i]. *)
Theorem read_line_mem_in_page (mem : list Z) (p2 : bool) (line : Z) :
  length mem = Z.to_nat MAX_ADDRESS ->
  Forall (fun b => 0 <= b < 256) mem ->
  0 <= line < 192 ->
  scanline (read_line_mem mem p2 line)
  /\ hgr_base p2 <= line_mem_addr p2 line
  /\ line_mem_addr p2 line + 40 <= hgr_base p2 + 8192
  /\ hgr_base p2 + 8192 <= MAX_ADDRESS
  /\ (forall i, (i < 40)%nat ->
        byte_at (read_line_mem mem p2 line) i =
        nth (Z.to_nat (line_mem_addr p2 line) + i) mem 0).
Proof.
  intros Hlen Hb Hl.
  destruct (line_ends_in_page line Hl) as (L0 & L1).
  assert (HB : hgr_base p2 = 0x2000 \/ hgr_base p2 = 0x4000)
    by (destruct p2; [right|left]; reflexivity).
  assert (HMz : MAX_ADDRESS = 49152) by reflexivity.
  rewrite HMz in *.
  unfold line_mem_addr.
  split; [|split; [lia|split; [lia|split; [lia|]]]].
  - split.
    + unfold read_line_mem, line_mem_addr.
      rewrite length_firstn, length_skipn, Hlen. lia.
    + unfold read_line_mem. apply Forall_forall. intros b Hin.
      apply In_firstn_skipn in Hin.
      rewrite Forall_forall in Hb. now apply Hb.
  - intros i Hi. unfold byte_at, read_line_mem, line_mem_addr.
    rewrite nth_firstn.
    destruct (Nat.ltb_spec i 40); [|lia].
    now rewrite nth_skipn.
Qed.

Lemma read_line_mem_in_page_witness :
  let mem := repeat 0 (Z.to_nat MAX_ADDRESS) in
  scanline (read_line_mem mem true 191)
  /\ hgr_base true <= line_mem_addr true 191
  /\ line_mem_addr true 191 + 40 <= hgr_base true + 8192
  /\ hgr_base true + 8192 <= MAX_ADDRESS
  /\ (forall i, (i < 40)%nat ->
        byte_at (read_line_mem mem true 191) i =
        nth (Z.to_nat (line_mem_addr true 191) + i) mem 0).
Proof.
  intro mem.
  apply (read_line_mem_in_page mem true 191).
  - apply repeat_length.
  - apply Forall_repeat_byte.
  - lia.
Defined.

(** ** Frames *)

Section FrameProps.
Context {tables : HiresTables}.

Lemma render_hires_line_returns (fuel : nat) (mono : bool) (mem : list Z)
    (p2 : bool) (line : Z) :
  (7 <= fuel)%nat ->
  exists ts,
    render_hires_line fuel mono mem p2 line = Some ts /\ length ts = 280%nat.
Proof.
  intros Hf. unfold render_hires_line. destruct mono.
  - destruct (mono_prefix_inv fuel (read_line_mem mem p2 line) 40 Hf)
      as (st & R & _ & _ & L & _).
    unfold render_mono. rewrite R. eexists. split; [reflexivity|].
    now rewrite length_map.
  - eexists. split; [reflexivity|]. rewrite length_map.
    apply render_color_inv.
Qed.

Lemma render_lines_firstn (fuel : nat) (dev : nat -> device) (n m : nat) :
  (n <= m)%nat ->
  render_lines fuel dev n = firstn n (render_lines fuel dev m).
Proof.
  intros H. unfold render_lines.
  rewrite firstn_map. f_equal.
  replace m with (n + (m - n))%nat by lia.
  rewrite seq_app, firstn_app, length_seq, Nat.sub_diag.
  cbn [firstn]. rewrite app_nil_r.
  symmetry. apply firstn_all2. rewrite length_seq. lia.
Qed.

(** X4. Whatever the mode flags and the memory are at each line, a frame
    is 192 scanlines (160 in mixed mode), every one of them is produced and
    holds 280 symbol triples, and the graphics part of a mixed-mode frame
    is the first 160 lines of the full frame. *)
Theorem render_hires_frame (fuel : nat) (dev : nat -> device) :
  (7 <= fuel)%nat ->
  length (render_hires fuel dev) = 192%nat
  /\ length (render_mixed_hires fuel dev) = 160%nat
  /\ render_mixed_hires fuel dev = firstn 160 (render_hires fuel dev)
  /\ Forall (fun r => exists ts, r = Some ts /\ length ts = 280%nat)
            (render_hires fuel dev).
Proof.
  intros Hf. unfold render_hires, render_mixed_hires.
  split; [unfold render_lines; now rewrite length_map, length_seq|].
  split; [unfold render_lines; now rewrite length_map, length_seq|].
  split; [apply render_lines_firstn; lia|].
  unfold render_lines. apply Forall_forall. intros r Hr.
  apply in_map_iff in Hr. destruct Hr as (l & <- & _).
  now apply render_hires_line_returns.
Qed.

End FrameProps.

Lemma render_hires_frame_witness :
  let dev := fun _ : nat =>
    {| soft_switches := SOFTSW_HIRES_MODE;
       mono_rendering := true;
       apple_memory := repeat 0 (Z.to_nat MAX_ADDRESS) |} in
  length (render_hires (tables := demo_tables) 7 dev) = 192%nat
  /\ length (render_mixed_hires (tables := demo_tables) 7 dev) = 160%nat
  /\ render_mixed_hires (tables := demo_tables) 7 dev
     = firstn 160 (render_hires (tables := demo_tables) 7 dev)
  /\ Forall (fun r => exists ts, r = Some ts /\ length ts = 280%nat)
            (render_hires (tables := demo_tables) 7 dev).
Proof.
  intro dev.
  apply (render_hires_frame (tables := demo_tables) 7 dev). lia.
Defined.

(** ** Monochrome path: output *)

Section MonoOutput.
Context {tables : HiresTables}.

Lemma mono_consume_out (n : nat) :
  forall (fuel : nat) (st : mono_st),
  m_dotc st = 2 * Z.of_nat n -> 2 * Z.of_nat n < 2 ^ 32 -> (n <= fuel)%nat ->
  exists st',
    mono_consume fuel st = Some st'
    /\ m_dotc st' = 0
    /\ m_lastmsb st' = m_lastmsb st
    /\ m_dots st' = Z.shiftr (m_dots st) (2 * Z.of_nat n)
    /\ m_out st' =
       m_out st ++
       map (fun j => Z.land (Z.shiftr (m_dots st) (2 * Z.of_nat j)) 0x3)
           (seq 0 n).
Proof.
  induction n as [|n IH]; intros fuel st Hc Hb Hf.
  - exists st. change (2 * Z.of_nat 0) with 0 in *.
    assert (E : mono_consume fuel st = Some st)
      by (destruct fuel; cbn [mono_consume]; rewrite Hc; reflexivity).
    split; [exact E|]. split; [exact Hc|]. split; [reflexivity|].
    split; [now rewrite Z.shiftr_0_r|]. cbn [seq map]. now rewrite app_nil_r.
  - destruct fuel as [|fuel]; [lia|].
    cbn [mono_consume].
    destruct (Z.eqb_spec (m_dotc st) 0) as [E|_]; [lia|].
    destruct (IH fuel (mono_emit st)) as (st' & R & D & M & S' & O).
    + unfold mono_emit. cbn [m_dotc]. unfold uint_fast8.
      rewrite Hc, Z.mod_small by lia. lia.
    + lia.
    + lia.
    + exists st'. split; [exact R|]. split; [exact D|].
      split; [exact M|]. split.
      * rewrite S'. unfold mono_emit. cbn [m_dots].
        rewrite Z.shiftr_shiftr by lia. f_equal. lia.
      * rewrite O. unfold mono_emit. cbn [m_out m_dots].
        rewrite <- app_assoc. f_equal.
        cbn [seq map app]. f_equal.
        rewrite <- seq_shift, map_map. apply map_ext. intros j.
        rewrite Z.shiftr_shiftr by lia. do 2 f_equal. lia.
Qed.

Lemma map_byte_at_seq (line_mem : list Z) :
  map (byte_at line_mem) (seq 0 (length line_mem)) = line_mem.
Proof.
  induction line_mem as [|a l IH]; [reflexivity|].
  cbn [length seq map]. unfold byte_at at 1. cbn [nth]. f_equal.
  rewrite <- seq_shift, map_map. exact IH.
Qed.

Lemma mono_prefix_out (fuel : nat) (line_mem : list Z) (k : nat) :
  (7 <= fuel)%nat ->
  (forall i, 0 <= hires_dot_patterns2 i < 2 ^ 14) ->
  exists st,
    mono_prefix fuel line_mem k = Some st
    /\ m_dotc st = 0 /\ m_lastmsb st = 0 /\ m_dots st = 0
    /\ m_out st =
       flat_map (fun b => dot_groups (hires_dot_patterns2 b))
                (map (byte_at line_mem) (seq 0 k)).
Proof.
  intros Hf Ht. induction k as [|k IH].
  - exists mono_init. split; [apply for_loop_opt_empty|]. repeat split.
  - destruct IH as (st & R & C & M & Z0 & O).
    rewrite (mono_prefix_S _ _ _ _ R). unfold mono_iter.
    set (b := byte_at line_mem k).
    set (p := hires_dot_patterns2 b).
    assert (Hp : 0 <= p < 2 ^ 14) by apply Ht.
    assert (HD : m_dots (mono_load b st) = p).
    { unfold mono_load, mono_pattern_index. cbn [m_dots].
      rewrite Z0, C, M, !Z.lor_0_l, Z.shiftl_0_r. fold p.
      unfold uint32. now rewrite !(Z.mod_small p (2 ^ 32)) by lia. }
    destruct (mono_consume_out 7 fuel (mono_load b st))
      as (st' & R' & C' & M' & S' & O');
      [unfold mono_load; cbn [m_dotc]; rewrite C; reflexivity
      |reflexivity|exact Hf|].
    exists st'. split; [exact R'|]. split; [exact C'|]. split.
    { rewrite M'. unfold mono_load. cbn [m_lastmsb]. now rewrite C. }
    split.
    { rewrite S', HD. apply Z.shiftr_eq_0; [lia|].
      destruct (Z.eq_dec p 0) as [->|]; [reflexivity|].
      apply Z.log2_lt_pow2; lia. }
    rewrite O', HD. unfold mono_load at 1. cbn [m_out]. rewrite O.
    rewrite (seq_S k 0), (map_app (byte_at line_mem)), flat_map_app.
    cbn [map flat_map Nat.add]. now rewrite app_nil_r.
Qed.

(** X5. When the entries of [hires_dot_patterns2] have 14 bits, the
    monochrome path treats every byte on its own: the stores of a line are,
    byte after byte, the seven 2-bit groups of the byte's table entry,
    lowest group first, and nothing is left in the accumulator. *)
Theorem render_mono_bytewise (fuel : nat) (line_mem : list Z) :
  (7 <= fuel)%nat ->
  (forall i, 0 <= hires_dot_patterns2 i < 2 ^ 14) ->
  length line_mem = 40%nat ->
  exists st,
    render_mono fuel line_mem = Some st
    /\ m_out st =
       flat_map (fun b => dot_groups (hires_dot_patterns2 b)) line_mem
    /\ m_dots st = 0.
Proof.
  intros Hf Ht Hlen.
  destruct (mono_prefix_out fuel line_mem 40 Hf Ht) as (st & R & _ & _ & Z0 & O).
  exists st. split; [exact R|]. split; [|exact Z0].
  rewrite O, <- Hlen. now rewrite map_byte_at_seq.
Qed.

(** X6. Monochrome output is green only: in every triple of a monochrome
    scanline the red and the blue symbol are [TMDS_SYMBOL_0_0], and the
    green symbol is one of the four entries of the green table. *)
Theorem mono_scanline_green_only (fuel : nat) (mem : list Z) (p2 : bool)
    (line : Z) :
  (7 <= fuel)%nat ->
  exists ts,
    render_hires_line fuel true mem p2 line = Some ts
    /\ Forall (fun t : triple =>
                 fst (fst t) = TMDS_SYMBOL_0_0
                 /\ snd t = TMDS_SYMBOL_0_0
                 /\ In (snd (fst t)) hires_mono_patterns_green) ts.
Proof.
  intros Hf. unfold render_hires_line, render_mono.
  destruct (mono_prefix_inv fuel (read_line_mem mem p2 line) 40 Hf)
    as (st & R & _ & _ & _ & O).
  rewrite R. eexists. split; [reflexivity|].
  apply Forall_forall. intros t Ht.
  apply in_map_iff in Ht. destruct Ht as (i & <- & Hi).
  rewrite Forall_forall in O. specialize (O i Hi). unfold mono_index_ok in O.
  assert (Hc : i = 0 \/ i = 1 \/ i = 2 \/ i = 3) by lia.
  unfold mono_triple, hires_mono_patterns_green.
  destruct Hc as [->|[->|[->| ->]]]; cbn; auto 10.
Qed.

End MonoOutput.

Lemma demo_dot_pattern_14bit_check :
  forallb (fun i => (0 <=? demo_dot_pattern i) && (demo_dot_pattern i <? 2 ^ 14))
          (map Z.of_nat (seq 0 256)) = true.
Proof. vm_compute. reflexivity. Qed.

Lemma demo_tables_14bit (i : Z) :
  0 <= hires_dot_patterns2 (HiresTables := demo_tables) i < 2 ^ 14.
Proof.
  cbn [hires_dot_patterns2 demo_tables].
  assert (H : 0 <= i mod 256 < Z.of_nat 256)
    by (apply Z.mod_pos_bound; lia).
  pose proof (Z_range_forallb _ 256 demo_dot_pattern_14bit_check _ H) as C.
  cbv beta in C. apply andb_prop in C. destruct C as [C1 C2].
  apply Z.leb_le in C1. apply Z.ltb_lt in C2. lia.
Qed.

Lemma render_mono_bytewise_witness :
  exists st,
    render_mono (tables := demo_tables) 7 demo_line = Some st
    /\ m_out st =
       flat_map (fun b => dot_groups
                   (hires_dot_patterns2 (HiresTables := demo_tables) b))
                demo_line
    /\ m_dots st = 0.
Proof.
  apply (render_mono_bytewise (tables := demo_tables) 7 demo_line).
  - lia.
  - exact demo_tables_14bit.
  - reflexivity.
Defined.

Lemma mono_scanline_green_only_witness :
  exists ts,
    render_hires_line (tables := demo_tables) 7 true
      (repeat 0 (Z.to_nat MAX_ADDRESS)) false 3 = Some ts
    /\ Forall (fun t : triple =>
                 fst (fst t) = TMDS_SYMBOL_0_0 (HiresTables := demo_tables)
                 /\ snd t = TMDS_SYMBOL_0_0 (HiresTables := demo_tables)
                 /\ In (snd (fst t))
                       (hires_mono_patterns_green (tables := demo_tables))) ts.
Proof.
  apply (mono_scanline_green_only (tables := demo_tables) 7
           (repeat 0 (Z.to_nat MAX_ADDRESS)) false 3).
  lia.
Defined.

(** ** Color path: windows and reads *)

Lemma window_after_shift (m s : Z) :
  0 <= s <= 24 ->
  Z.land (Z.shiftr (uint32 (Z.shiftl m s)) 24) 0xff =
  Z.land (Z.shiftr m (24 - s)) 0xff.
Proof.
  intros Hs. apply Z.bits_inj'. intros n Hn.
  rewrite !Z.land_spec, !Z.shiftr_spec by lia.
  rewrite uint32_testbit, Z.shiftl_spec by lia.
  change 0xff with (Z.ones 8).
  destruct (Z.ltb_spec n 8).
  - destruct (Z.ltb_spec (n + 24) 32); [|lia].
    cbn [andb]. do 2 f_equal. lia.
  - rewrite Z.ones_spec_high by lia. now rewrite !andb_false_r.
Qed.

Lemma for_loop_ext {S : Type} (lo hi : nat) (f g : nat -> S -> S) (s : S) :
  (forall i st, (lo <= i < hi)%nat -> f i st = g i st) ->
  for_loop lo hi f s = for_loop lo hi g s.
Proof.
  intros H. induction hi as [|hi IH].
  - reflexivity.
  - destruct (Nat.le_gt_cases lo hi) as [Hle|Hgt].
    + rewrite !for_loop_snoc by exact Hle.
      rewrite IH by (intros; apply H; lia). apply H. lia.
    + unfold for_loop. now replace (Datatypes.S hi - lo)%nat with 0%nat by lia.
Qed.

Lemma for_loop_opt_ext {S : Type} (lo hi : nat)
    (f g : nat -> S -> option S) (s : S) :
  (forall i st, (lo <= i < hi)%nat -> f i st = g i st) ->
  for_loop_opt lo hi f s = for_loop_opt lo hi g s.
Proof.
  intros H. induction hi as [|hi IH].
  - reflexivity.
  - destruct (Nat.le_gt_cases lo hi) as [Hle|Hgt].
    + rewrite !for_loop_opt_snoc by exact Hle.
      rewrite IH by (intros; apply H; lia).
      destruct (for_loop_opt lo hi g s); [apply H; lia|reflexivity].
    + unfold for_loop_opt. now replace (Datatypes.S hi - lo)%nat with 0%nat by lia.
Qed.

Lemma byte_at_firstn (l : list Z) (i : nat) :
  (i < 40)%nat -> byte_at l i = byte_at (firstn 40 l) i.
Proof.
  intros H. unfold byte_at. rewrite nth_firstn.
  now destruct (Nat.ltb_spec i 40); [|lia].
Qed.

Section ColorOutput.
Context {tables : HiresTables}.

(** X7. A pass of the color path looks at the merged window through an
    8-bit opening that starts at bits 31..24 and moves two bits down for
    each of its seven stores: the window values stored are bits
    31-2j .. 24-2j of the merged window, for j = 0..6. *)
Theorem color_step_windows (b : Z) (st : color_st) :
  map e_window (c_out (color_step b st)) =
  map e_window (c_out st) ++ windows_of (color_merge b (c_dots st)).
Proof.
  unfold color_step, for_loop.
  cbn [Nat.sub seq fold_left color_consume c_dots c_out c_oddness].
  rewrite !uint32_shiftl_shiftl by lia.
  rewrite !map_app. cbn [map e_window]. rewrite <- !app_assoc. f_equal.
  cbn [app]. unfold windows_of. cbn [seq map].
  set (m := color_merge b (c_dots st)).
  repeat (apply (f_equal2 cons);
          [try (rewrite window_after_shift by lia);
           apply (f_equal (fun x => Z.land (Z.shiftr m x) 255)); lia|]).
  reflexivity.
Qed.

(** X8. Neither path reads beyond the 40 bytes of the line: two inputs
    that agree on their first 40 bytes are rendered alike.  (The color path
    runs its counter up to 40, and takes 0 instead of [line_mem[40]].) *)
Theorem render_reads_40_bytes (fuel : nat) (l1 l2 : list Z) :
  firstn 40 l1 = firstn 40 l2 ->
  render_color l1 = render_color l2
  /\ render_mono fuel l1 = render_mono fuel l2.
Proof.
  intros H.
  assert (B : forall i, (i < 40)%nat -> byte_at l1 i = byte_at l2 i)
    by (intros i Hi; rewrite (byte_at_firstn l1), (byte_at_firstn l2), H
          by exact Hi; reflexivity).
  split.
  - unfold render_color, color_init, color_seed.
    rewrite (B 0%nat) by lia.
    apply for_loop_ext. intros i st Hi. unfold color_iter, color_byte.
    destruct (Nat.ltb_spec i 40); [now rewrite B|reflexivity].
  - unfold render_mono, mono_prefix.
    apply for_loop_opt_ext. intros i st Hi. unfold mono_iter.
    now rewrite B by lia.
Qed.

End ColorOutput.

Lemma render_reads_40_bytes_witness :
  render_color (tables := demo_tables) (demo_line ++ [255; 255])
  = render_color (tables := demo_tables) demo_line
  /\ render_mono (tables := demo_tables) 7 (demo_line ++ [255; 255])
     = render_mono (tables := demo_tables) 7 demo_line.
Proof.
  apply (render_reads_40_bytes (tables := demo_tables) 7
           (demo_line ++ [255; 255]) demo_line).
  reflexivity.
Defined.

(** ** Color path: what crosses a byte boundary *)

Section ColorBleed.
Context {tables : HiresTables}.

Lemma color_pass_windows (b : Z) (st : color_st) :
  map e_window (c_out (color_step b st)) =
  map e_window (c_out st) ++ windows_of (color_merge b (c_dots st)).
Proof.
  unfold color_step, for_loop.
  cbn [Nat.sub seq fold_left color_consume c_dots c_out c_oddness].
  rewrite !uint32_shiftl_shiftl by lia.
  rewrite !map_app. cbn [map e_window]. rewrite <- !app_assoc.
  apply (f_equal (app (map e_window (c_out st)))).
  cbn [app]. unfold windows_of. cbn [seq map].
  set (m := color_merge b (c_dots st)).
  repeat (apply (f_equal2 cons);
          [try (rewrite window_after_shift by lia);
           apply (f_equal (fun x => Z.land (Z.shiftr m x) 255)); lia|]).
  reflexivity.
Qed.

(** C3, as the code has it.  On entry to every pass of the outer loop bits
    0..14 of the window are clear and bits 15..31 hold the dots of the
    earlier bytes that are not consumed yet.  If bit 7 of the incoming byte
    is set, the extension copies bit 15 (the trailing dot of the previous
    byte) into bit 14 and changes no other bit; if bit 7 is clear it changes
    nothing; so the extension adds either nothing or the single bit 2^14.
    The new byte's pattern is then OR-ed in one bit up from bit 0, and the
    pass consumes that merged window: its seven stores look at bits
    31-2j..24-2j of it, and the window it leaves is the merged window moved
    up by 14 bits. *)
Theorem color_bleed_replicates_trailing_bit (line_mem : list Z) (k : nat) :
  (k < 40)%nat ->
  let st := color_prefix line_mem k in
  let st' := color_prefix line_mem (S k) in
  let b := color_byte line_mem (1 + k) in
  let dots := c_dots st in
  let merged := color_merge b dots in
  (forall n, 0 <= n < 15 -> Z.testbit dots n = false)
  /\ (forall n, 0 <= n ->
        Z.testbit (color_extend b dots) n =
        if n =? 14 then Z.testbit b 7 && Z.testbit dots 15
        else Z.testbit dots n)
  /\ (Z.land b 0x80 <> 0 ->
        Z.testbit (color_extend b dots) 14 = Z.testbit dots 15)
  /\ (Z.land b 0x80 = 0 -> color_extend b dots = dots)
  /\ color_extend b dots =
     dots + (if Z.testbit b 7 && Z.testbit dots 15 then 2 ^ 14 else 0)
  /\ merged =
     Z.lor (color_extend b dots)
           (uint32 (Z.shiftl (uint32 (hires_dot_patterns b)) 1))
  /\ c_dots st' = uint32 (Z.shiftl merged 14)
  /\ map e_window (c_out st') = map e_window (c_out st) ++ windows_of merged
  /\ length (c_out st') = (length (c_out st) + 7)%nat.
Proof.
  intros _ st st' b dots merged.
  destruct (color_prefix_inv line_mem k) as (_ & _ & Hlow).
  fold st in Hlow. fold dots in Hlow.
  assert (H14 : Z.testbit dots 14 = false) by (apply Hlow; lia).
  assert (ES : st' = color_step b st) by apply color_prefix_S.
  split; [exact Hlow|]. split; [|split; [|split; [|split; [|split]]]].
  - intros n Hn. rewrite color_extend_bits by exact Hn.
    destruct (Z.eqb_spec n 14); [now rewrite H14|reflexivity].
  - intros Hb. apply land_0x80_bit in Hb.
    rewrite color_extend_bits by lia. change (14 =? 14) with true. cbv iota.
    now rewrite H14, Hb.
  - apply extend_no_bleed.
  - now apply extend_one_bit.
  - reflexivity.
  - rewrite ES. split; [apply color_step_dots|].
    split; [apply color_pass_windows|apply color_step_length].
Qed.

End ColorBleed.

(** At pass 17 of the sample line the incoming byte is 0x80 and the previous
    byte ends in a set dot: the extension does add bit 14. *)
Lemma color_bleed_replicates_trailing_bit_witness :
  let st := color_prefix (tables := demo_tables) demo_line 17 in
  let st' := color_prefix (tables := demo_tables) demo_line 18 in
  let b := color_byte demo_line (1 + 17) in
  let dots := c_dots st in
  let merged := color_merge (tables := demo_tables) b dots in
  ((forall n, 0 <= n < 15 -> Z.testbit dots n = false)
   /\ (forall n, 0 <= n ->
         Z.testbit (color_extend b dots) n =
         if n =? 14 then Z.testbit b 7 && Z.testbit dots 15
         else Z.testbit dots n)
   /\ (Z.land b 0x80 <> 0 ->
         Z.testbit (color_extend b dots) 14 = Z.testbit dots 15)
   /\ (Z.land b 0x80 = 0 -> color_extend b dots = dots)
   /\ color_extend b dots =
      dots + (if Z.testbit b 7 && Z.testbit dots 15 then 2 ^ 14 else 0)
   /\ merged =
      Z.lor (color_extend b dots)
            (uint32 (Z.shiftl (uint32 (demo_dot_pattern b)) 1))
   /\ c_dots st' = uint32 (Z.shiftl merged 14)
   /\ map e_window (c_out st') = map e_window (c_out st) ++ windows_of merged
   /\ length (c_out st') = (length (c_out st) + 7)%nat)
  /\ b = 0x80
  /\ Z.testbit dots 15 = true
  /\ color_extend b dots = dots + 2 ^ 14.
Proof.
  split.
  - apply (color_bleed_replicates_trailing_bit (tables := demo_tables)
             demo_line 17).
    lia.
  - vm_compute. repeat split.
Defined.

(** C3, as the design document words it, fails: more than one bit of
    state crosses a byte boundary.  The two sample lines differ only in the
    byte at index 17, so pass 17 merges the same byte (0x80) in both; yet on
    entry to that pass their windows differ in fourteen bit positions
    (among them bits 15 and 28), and the seven windows the pass stores
    differ accordingly. *)
Lemma color_window_carries_many_bits_counterexample :
  let w1 := c_dots (color_prefix (tables := demo_tables) demo_line 17) in
  let w2 := c_dots (color_prefix (tables := demo_tables) demo_line_cleared 17) in
  let out1 := c_out (color_prefix (tables := demo_tables) demo_line 18) in
  let out2 := c_out (color_prefix (tables := demo_tables) demo_line_cleared 18) in
  skipn 18 demo_line = skipn 18 demo_line_cleared
  /\ color_byte demo_line 18 = 0x80
  /\ color_byte demo_line_cleared 18 = 0x80
  /\ w1 = 0xFFFF8000
  /\ w2 = 0xE0000000
  /\ Z.testbit w1 15 = true /\ Z.testbit w2 15 = false
  /\ Z.testbit w1 28 = true /\ Z.testbit w2 28 = false
  /\ map e_window (skipn 119 out1) = [255; 255; 255; 255; 255; 255; 252]
  /\ map e_window (skipn 119 out2) = [224; 128; 0; 0; 0; 0; 0].
Proof. vm_compute. repeat split. Qed.

(** * Further properties of the configuration code *)

Module ConfigExtra.
Import Config ConfigStore ConfigProps.

(** Replace [Z.testbit c n], for closed [c] and [n], by its value. *)
Ltac eval_const_bits :=
  repeat match goal with
         | |- context [Z.testbit ?c ?n] =>
             lazymatch c with
             | context [internal_flags] => fail
             | _ => let v := eval vm_compute in (Z.testbit c n) in
                    change (Z.testbit c n) with v
             end
         end.

Lemma testbit_high_uint32 (z n : Z) :
  0 <= z < 2 ^ 32 -> 32 <= n -> Z.testbit z n = false.
Proof.
  intros Hz Hn. rewrite <- (Z.mod_small z (2 ^ 32)) by exact Hz.
  apply Z.mod_pow2_bits_high. lia.
Qed.

(** X9. The flag macros of buffers.h agree: after [SET_IFLAG(c, F)] the
    test [IS_IFLAG(F)] gives [c], and the test of any flag word [G] that
    shares no bit with [F] gives what it gave before. *)
Theorem iflag_set_then_test (c : bool) (F G f : Z) :
  0 < F < 2 ^ 32 -> 0 <= G < 2 ^ 32 -> Z.land F G = 0 ->
  IS_IFLAG (SET_IFLAG c F f) F = c
  /\ IS_IFLAG (SET_IFLAG c F f) G = IS_IFLAG f G.
Proof.
  intros HF HG Hdis.
  assert (BF : forall n, 32 <= n -> Z.testbit F n = false)
    by (intros; apply testbit_high_uint32; lia).
  assert (BG : forall n, 32 <= n -> Z.testbit G n = false)
    by (intros; apply testbit_high_uint32; lia).
  assert (BD : forall n, 0 <= n -> Z.testbit F n && Z.testbit G n = false)
    by (intros n Hn; rewrite <- Z.land_spec, Hdis; apply Z.bits_0).
  split.
  - unfold IS_IFLAG, SET_IFLAG. destruct c.
    + apply Z.eqb_eq. apply Z.bits_inj'. intros n Hn.
      rewrite Z.land_spec, uint32_testbit, Z.lor_spec by exact Hn.
      destruct (Z.ltb_spec n 32).
      * cbn [andb]. destruct (Z.testbit f n), (Z.testbit F n); reflexivity.
      * rewrite BF by lia. reflexivity.
    + apply Z.eqb_neq. intros E.
      assert (Z0 : F = 0); [|lia].
      apply Z.bits_inj'. intros n Hn. rewrite Z.bits_0, <- E.
      rewrite Z.land_spec, uint32_testbit, Z.land_spec, Z.lnot_spec
        by exact Hn.
      destruct (Z.testbit F n) eqn:T.
      * cbn [negb]. now rewrite !andb_false_r.
      * now rewrite andb_false_r.
  - unfold IS_IFLAG. f_equal. apply Z.bits_inj'. intros n Hn.
    specialize (BD n Hn). rewrite !Z.land_spec.
    destruct (Z.ltb_spec n 32) as [Hlt|Hge].
    + unfold SET_IFLAG. destruct c;
        rewrite uint32_testbit, ?Z.lor_spec, ?Z.land_spec, ?Z.lnot_spec
          by exact Hn;
        destruct (Z.ltb_spec n 32); try lia; cbn [andb];
        destruct (Z.testbit f n), (Z.testbit F n), (Z.testbit G n);
        try reflexivity; discriminate BD.
    + rewrite BG by lia. now rewrite !andb_false_r.
Qed.

Lemma iflag_set_then_test_witness :
  IS_IFLAG (SET_IFLAG false IFLAGS_VIDEO7 0xffffffff) IFLAGS_VIDEO7 = false
  /\ IS_IFLAG (SET_IFLAG false IFLAGS_VIDEO7 0xffffffff) IFLAGS_TEST
     = IS_IFLAG 0xffffffff IFLAGS_TEST.
Proof.
  apply (iflag_set_then_test false IFLAGS_VIDEO7 IFLAGS_TEST 0xffffffff);
    vm_compute; try reflexivity; split; congruence.
Defined.

Section LoaderExtra.
Context {platform : ConfigPlatform}.

Lemma machines_distinct_facts :
  machines_distinct ->
  let early := [MACHINE_AUTO; MACHINE_AGAT7; MACHINE_AGAT9; MACHINE_BASIS;
                MACHINE_PRAVETZ; MACHINE_II] in
  ~ In MACHINE_IIE early /\ ~ In MACHINE_IIGS early
  /\ MACHINE_IIE <> MACHINE_IIGS.
Proof.
  unfold machines_distinct. intros H.
  repeat match goal with
         | H : NoDup (_ :: _) |- _ =>
             apply NoDup_cons_iff in H; destruct H as [? H]
         end.
  cbn [In] in *. intuition congruence.
Qed.

Lemma in_early_eqb (m : Z) :
  let early := [MACHINE_AUTO; MACHINE_AGAT7; MACHINE_AGAT9; MACHINE_BASIS;
                MACHINE_PRAVETZ; MACHINE_II] in
  ((m =? MACHINE_AUTO) || (m =? MACHINE_AGAT7) || (m =? MACHINE_AGAT9)
   || (m =? MACHINE_BASIS) || (m =? MACHINE_PRAVETZ) || (m =? MACHINE_II)
   = true) <-> In m early.
Proof.
  cbn [In]. rewrite !orb_true_iff, !Z.eqb_eq.
  intuition congruence.
Qed.

(** The flag word [set_machine] leaves, by the case of the [switch]. *)
Lemma set_machine_flags (m : Z) (g : globals) :
  let early := [MACHINE_AUTO; MACHINE_AGAT7; MACHINE_AGAT9; MACHINE_BASIS;
                MACHINE_PRAVETZ; MACHINE_II] in
  let f := internal_flags g in
  let f' := internal_flags (set_machine m g) in
  (In m early ->
     f' = uint32 (Z.land f (Z.lnot (Z.lor IFLAGS_IIGS_REGS IFLAGS_IIE_REGS))))
  /\ (~ In m early -> m = MACHINE_IIE ->
     f' = uint32 (Z.lor (uint32 (Z.land f (Z.lnot IFLAGS_IIGS_REGS)))
                        IFLAGS_IIE_REGS))
  /\ (~ In m early -> m <> MACHINE_IIE -> m = MACHINE_IIGS ->
     f' = uint32 (Z.lor (uint32 (Z.land f (Z.lnot IFLAGS_IIE_REGS)))
                        IFLAGS_IIGS_REGS))
  /\ (~ In m early -> m <> MACHINE_IIE -> m <> MACHINE_IIGS -> f' = f).
Proof.
  intros early f f'. subst f'. unfold set_machine.
  cbn [internal_flags set_current_machine set_internal_flags].
  pose proof (in_early_eqb m) as E. cbv zeta in E. fold early in E.
  destruct ((m =? MACHINE_AUTO) || (m =? MACHINE_AGAT7) || (m =? MACHINE_AGAT9)
            || (m =? MACHINE_BASIS) || (m =? MACHINE_PRAVETZ)
            || (m =? MACHINE_II)) eqn:C.
  - assert (In m early) by (apply E; reflexivity).
    repeat split; intros; try reflexivity; contradiction.
  - assert (~ In m early) by (intros I; apply E in I; discriminate).
    repeat split; intros; try contradiction.
    + subst m. now rewrite Z.eqb_refl.
    + subst m.
      destruct (Z.eqb_spec MACHINE_IIGS MACHINE_IIE); [congruence|].
      now rewrite Z.eqb_refl.
    + destruct (Z.eqb_spec m MACHINE_IIE); [contradiction|].
      destruct (Z.eqb_spec m MACHINE_IIGS); [contradiction|reflexivity].
Qed.

(** X10. [set_machine] records the machine and touches only the two
    register-set flags.  With distinct machine codes: a IIe sets the IIe
    flag and clears the IIgs flag, a IIgs does the opposite, the six other
    known machines clear both, and an unknown code leaves the flag word as
    it is.  The two flags are never both set for a known machine. *)
Theorem set_machine_register_flags (m : Z) (g : globals) :
  machines_distinct ->
  let early := [MACHINE_AUTO; MACHINE_AGAT7; MACHINE_AGAT9; MACHINE_BASIS;
                MACHINE_PRAVETZ; MACHINE_II] in
  let f' := internal_flags (set_machine m g) in
  current_machine (set_machine m g) = m
  /\ (forall n, 0 <= n < 30 ->
        Z.testbit f' n = Z.testbit (internal_flags g) n)
  /\ (m = MACHINE_IIE ->
        IS_IFLAG f' IFLAGS_IIE_REGS = true
        /\ IS_IFLAG f' IFLAGS_IIGS_REGS = false)
  /\ (m = MACHINE_IIGS ->
        IS_IFLAG f' IFLAGS_IIGS_REGS = true
        /\ IS_IFLAG f' IFLAGS_IIE_REGS = false)
  /\ (In m early ->
        IS_IFLAG f' IFLAGS_IIE_REGS = false
        /\ IS_IFLAG f' IFLAGS_IIGS_REGS = false)
  /\ (~ In m early -> m <> MACHINE_IIE -> m <> MACHINE_IIGS ->
        f' = internal_flags g).
Proof.
  intros Hd early f'.
  destruct (machines_distinct_facts Hd) as (NE & NG & NEG).
  destruct (set_machine_flags m g) as (F1 & F2 & F3 & F4).
  fold early in F1, F2, F3, F4, NE, NG. fold f' in F1, F2, F3, F4.
  split; [reflexivity|].
  split; [intros n Hn; now apply set_machine_testbit|].
  change IFLAGS_IIE_REGS with (2 ^ 30).
  change IFLAGS_IIGS_REGS with (2 ^ 31).
  rewrite !IS_IFLAG_bit by lia.
  change (2 ^ 30) with IFLAGS_IIE_REGS.
  change (2 ^ 31) with IFLAGS_IIGS_REGS.
  split; [|split; [|split]].
  - intros ->. rewrite F2 by (auto; congruence).
    rewrite !uint32_testbit, !Z.lor_spec, !uint32_testbit, !Z.land_spec,
      !Z.lnot_spec by lia.
    eval_const_bits. cbn [andb orb negb].
    now rewrite ?andb_false_r, ?orb_true_r, ?orb_false_r.
  - intros ->. rewrite F3 by (auto; congruence).
    rewrite !uint32_testbit, !Z.lor_spec, !uint32_testbit, !Z.land_spec,
      !Z.lnot_spec by lia.
    eval_const_bits. cbn [andb orb negb].
    now rewrite ?andb_false_r, ?orb_true_r, ?orb_false_r.
  - intros I. rewrite F1 by exact I.
    rewrite !uint32_testbit, !Z.land_spec, !Z.lnot_spec by lia.
    eval_const_bits. cbn [andb orb negb].
    now rewrite ?andb_false_r.
  - exact F4.
Qed.

End LoaderExtra.

Lemma demo_machines_distinct : machines_distinct (platform := demo_platform).
Proof.
  unfold machines_distinct. cbn.
  repeat (constructor; [cbn [In]; intuition discriminate|]).
  constructor.
Qed.

Lemma set_machine_register_flags_witness :
  let early := [255; 3; 4; 5; 6; 0] in
  let f' := internal_flags (set_machine (platform := demo_platform) 1
                              demo_globals) in
  current_machine (set_machine (platform := demo_platform) 1 demo_globals) = 1
  /\ (forall n, 0 <= n < 30 ->
        Z.testbit f' n = Z.testbit (internal_flags demo_globals) n)
  /\ (1 = 1 ->
        IS_IFLAG f' IFLAGS_IIE_REGS = true
        /\ IS_IFLAG f' IFLAGS_IIGS_REGS = false)
  /\ (1 = 2 ->
        IS_IFLAG f' IFLAGS_IIGS_REGS = true
        /\ IS_IFLAG f' IFLAGS_IIE_REGS = false)
  /\ (In 1 early ->
        IS_IFLAG f' IFLAGS_IIE_REGS = false
        /\ IS_IFLAG f' IFLAGS_IIGS_REGS = false)
  /\ (~ In 1 early -> 1 <> 1 -> 1 <> 2 ->
        f' = internal_flags demo_globals).
Proof.
  apply (set_machine_register_flags (platform := demo_platform) 1 demo_globals).
  exact demo_machines_distinct.
Defined.

Section StoreProps.
Context {platform : ConfigPlatform}.

(** X11. For a font number below [MAX_FONT_COUNT], [check_valid_font]
    returns a font that can be used: a built-in font is returned as it is,
    a custom font is returned when its bit in [invalid_fonts] is clear, and
    otherwise the default local character set is returned.  The result is
    never a custom font whose invalid bit is set. *)
Theorem check_valid_font_usable (g : globals) (font_nr : Z) :
  0 <= CUSTOM_FONT_COUNT <= 32 ->
  CUSTOM_FONT_COUNT <= MAX_FONT_COUNT <= 256 ->
  0 <= DEFAULT_LOCAL_CHARSET < first_custom_font ->
  0 <= font_nr < MAX_FONT_COUNT ->
  let r := check_valid_font g font_nr in
  (font_nr < first_custom_font -> r = font_nr)
  /\ (first_custom_font <= font_nr ->
        r = if Z.testbit (invalid_fonts g) (font_nr - first_custom_font)
            then DEFAULT_LOCAL_CHARSET else font_nr)
  /\ (r < first_custom_font
      \/ Z.testbit (invalid_fonts g) (r - first_custom_font) = false)
  /\ 0 <= r < MAX_FONT_COUNT.
Proof.
  intros HC HM HD HF r. subst r. unfold first_custom_font in *.
  unfold check_valid_font.
  assert (U : uint8 font_nr = font_nr) by (apply Z.mod_small; lia).
  assert (UD : uint8 DEFAULT_LOCAL_CHARSET = DEFAULT_LOCAL_CHARSET)
    by (apply Z.mod_small; lia).
  rewrite U, UD.
  destruct (Z.ltb_spec font_nr (MAX_FONT_COUNT - CUSTOM_FONT_COUNT)) as [Hb|Hc].
  - split; [reflexivity|]. split; [lia|]. split; [now left|lia].
  - set (c := font_nr - (MAX_FONT_COUNT - CUSTOM_FONT_COUNT)) in *.
    assert (Hcr : 0 <= c < 32) by (unfold c; lia).
    assert (UC : uint8 c = c) by (apply Z.mod_small; lia).
    assert (P : uint32 (Z.shiftl 1 c) = 2 ^ c).
    { rewrite Z.shiftl_1_l. apply Z.mod_small. split.
      - apply Z.pow_nonneg. lia.
      - apply Z.pow_lt_mono_r; lia. }
    rewrite UC, P, land_pow2_cases by lia.
    assert (0 < 2 ^ c) by (apply Z.pow_pos_nonneg; lia).
    destruct (Z.testbit (invalid_fonts g) c) eqn:T.
    + destruct (Z.eqb_spec (2 ^ c) 0); [lia|].
      split; [lia|]. split; [reflexivity|]. split; [left; lia|lia].
    + change (0 =? 0) with true. cbv iota.
      split; [lia|]. split; [reflexivity|]. split; [right; exact T|lia].
Qed.

Lemma config_load_charsets_keeps (g : globals) :
  let g' := config_load_charsets g in
  internal_flags g' = internal_flags g
  /\ detected_machine g' = detected_machine g
  /\ cfg_machine g' = cfg_machine g
  /\ current_machine g' = current_machine g
  /\ language_switch_enabled g' = language_switch_enabled g
  /\ enhanced_font_enabled g' = enhanced_font_enabled g
  /\ cfg_local_charset g' = cfg_local_charset g
  /\ cfg_alt_charset g' = cfg_alt_charset g
  /\ invalid_fonts g' = invalid_fonts g
  /\ color_mode g' = color_mode g
  /\ reload_charsets g' = 0.
Proof.
  unfold config_load_charsets.
  destruct (Z.land (reload_charsets g) 1 =? 0);
    cbn [reload_charsets set_character_rom];
    destruct (Z.land (reload_charsets g) 2 =? 0);
    repeat split.
Qed.

(** X12. [config_load_charsets] only writes [character_rom] and clears
    [reload_charsets]: every setting is kept, a call with nothing pending
    leaves the character ROM alone, and a second call changes nothing. *)
Theorem config_load_charsets_idempotent (g : globals) :
  config_load_charsets (config_load_charsets g) = config_load_charsets g
  /\ reload_charsets (config_load_charsets g) = 0
  /\ (reload_charsets g = 0 ->
        character_rom (config_load_charsets g) = character_rom g)
  /\ internal_flags (config_load_charsets g) = internal_flags g
  /\ cfg_local_charset (config_load_charsets g) = cfg_local_charset g
  /\ cfg_alt_charset (config_load_charsets g) = cfg_alt_charset g
  /\ invalid_fonts (config_load_charsets g) = invalid_fonts g.
Proof.
  destruct (config_load_charsets_keeps g)
    as (K1 & _ & _ & _ & _ & _ & K7 & K8 & K9 & _ & K11).
  assert (N : forall h, reload_charsets h = 0 ->
                        config_load_charsets h = set_reload_charsets 0 h).
  { intros h Hh. unfold config_load_charsets. rewrite Hh.
    change (Z.land 0 1 =? 0) with true. cbv iota. rewrite Hh.
    change (Z.land 0 2 =? 0) with true. reflexivity. }
  split; [|split; [exact K11|split; [|repeat split; assumption]]].
  - rewrite (N _ K11). unfold config_load_charsets.
    destruct (Z.land (reload_charsets g) 1 =? 0);
      cbn [reload_charsets set_character_rom];
      destruct (Z.land (reload_charsets g) 2 =? 0); reflexivity.
  - intros Hz. rewrite (N _ Hz). reflexivity.
Qed.

Lemma config_apply_settings (cfg : config_t) (g : globals) :
  let g' := config_apply cfg g in
  cfg_machine g' =
    (if machine_type cfg <=? MACHINE_MAX_CFG then machine_type cfg
     else MACHINE_AUTO)
  /\ current_machine g' = cfg_machine g'
  /\ color_mode g' = (if s_color_mode cfg <=? 2 then s_color_mode cfg else 0)
  /\ cfg_local_charset g' =
     (if local_charset cfg >=? MAX_FONT_COUNT then 0 else local_charset cfg)
  /\ cfg_alt_charset g' =
     (if alt_charset cfg >=? MAX_FONT_COUNT then 0 else alt_charset cfg)
  /\ language_switch_enabled g' = negb (s_language_switch_enabled cfg =? 0)
  /\ enhanced_font_enabled g' = negb (s_enhanced_font_enabled cfg =? 0)
  /\ reload_charsets g' = 0
  /\ invalid_fonts g' = invalid_fonts g
  /\ detected_machine g' = detected_machine g.
Proof.
  intro g'. subst g'. unfold config_apply.
  match goal with
  | |- context [config_load_charsets ?h] =>
      destruct (config_load_charsets_keeps h)
        as (_ & K2 & K3 & K4 & K5 & K6 & K7 & K8 & K9 & K10 & K11)
  end.
  rewrite K2, K3, K4, K5, K6, K7, K8, K9, K10, K11.
  repeat split.
Qed.

(** X13. A stored configuration that passes the validity test is not
    applied blindly: a color mode above 2 becomes 0, a machine type above
    [MACHINE_MAX_CFG] becomes [MACHINE_AUTO], a character set number that
    is not below [MAX_FONT_COUNT] becomes 0, and a value in range is taken
    as stored; the machine in use is the configured one, and the character
    sets are loaded at once (nothing is left pending). *)
Theorem config_load_sanitises (cfg : config_t) (dir : fontdir_t) (g : globals) :
  magic_word cfg = CFG_MAGIC_WORD_VALUE -> size cfg <= FLASH_SECTOR_SIZE ->
  0 < MAX_FONT_COUNT ->
  let g' := config_load cfg dir g in
  color_mode g' = (if s_color_mode cfg <=? 2 then s_color_mode cfg else 0)
  /\ cfg_machine g' =
     (if machine_type cfg <=? MACHINE_MAX_CFG then machine_type cfg
      else MACHINE_AUTO)
  /\ cfg_local_charset g' =
     (if local_charset cfg >=? MAX_FONT_COUNT then 0 else local_charset cfg)
  /\ cfg_alt_charset g' =
     (if alt_charset cfg >=? MAX_FONT_COUNT then 0 else alt_charset cfg)
  /\ (2 < s_color_mode cfg -> color_mode g' = 0)
  /\ (s_color_mode cfg <= 2 -> color_mode g' = s_color_mode cfg)
  /\ (MACHINE_MAX_CFG < machine_type cfg -> cfg_machine g' = MACHINE_AUTO)
  /\ (machine_type cfg <= MACHINE_MAX_CFG -> cfg_machine g' = machine_type cfg)
  /\ (MAX_FONT_COUNT <= local_charset cfg -> cfg_local_charset g' = 0)
  /\ (local_charset cfg < MAX_FONT_COUNT ->
        cfg_local_charset g' = local_charset cfg)
  /\ (MAX_FONT_COUNT <= alt_charset cfg -> cfg_alt_charset g' = 0)
  /\ (alt_charset cfg < MAX_FONT_COUNT ->
        cfg_alt_charset g' = alt_charset cfg)
  /\ current_machine g' = cfg_machine g'
  /\ color_mode g' <= 2
  /\ cfg_local_charset g' < MAX_FONT_COUNT
  /\ cfg_alt_charset g' < MAX_FONT_COUNT
  /\ reload_charsets g' = 0.
Proof.
  intros Hm Hs HF g'.
  assert (V : config_invalid cfg = false).
  { unfold config_invalid. rewrite Hm, Z.eqb_refl. cbn [negb orb].
    rewrite Z.gtb_ltb. apply Z.ltb_ge. exact Hs. }
  assert (E : g' = config_apply cfg (load_font_directory dir g))
    by (subst g'; unfold config_load; now rewrite V).
  destruct (config_apply_settings cfg (load_font_directory dir g))
    as (A1 & A2 & A3 & A4 & A5 & _ & _ & A8 & _ & _).
  rewrite <- E in A1, A2, A3, A4, A5, A8.
  split; [exact A3|]. split; [exact A1|]. split; [exact A4|].
  split; [exact A5|].
  rewrite A2, A1, A3, A4, A5, A8.
  destruct (Z.leb_spec (s_color_mode cfg) 2);
    destruct (Z.leb_spec (machine_type cfg) MACHINE_MAX_CFG);
    rewrite !Z.geb_leb;
    destruct (Z.leb_spec MAX_FONT_COUNT (local_charset cfg));
    destruct (Z.leb_spec MAX_FONT_COUNT (alt_charset cfg));
    repeat split; intros; try reflexivity; lia.
Qed.

Lemma new_config_size_bounds (k : Z) :
  0 <= k <= 12 ->
  new_config_size (2 ^ k) mod 2 ^ k = 0
  /\ sizeof_config_t <= new_config_size (2 ^ k) <= FLASH_SECTOR_SIZE.
Proof.
  intros Hk.
  assert (C : k = 0 \/ k = 1 \/ k = 2 \/ k = 3 \/ k = 4 \/ k = 5 \/ k = 6
              \/ k = 7 \/ k = 8 \/ k = 9 \/ k = 10 \/ k = 11 \/ k = 12) by lia.
  repeat (destruct C as [->|C]; [vm_compute; repeat split; congruence|]).
  subst k. vm_compute. repeat split; congruence.
Qed.

Lemma config_save_stores_image (k : Z) (g : globals) (sector : config_t) :
  0 <= k <= 12 -> config_save (2 ^ k) g sector = config_image g.
Proof.
  intros Hk. destruct (new_config_size_bounds k Hk) as (_ & B).
  unfold config_save, config_flash_write. rewrite Z.gtb_ltb.
  destruct (Z.ltb_spec FLASH_SECTOR_SIZE (new_config_size (2 ^ k)));
    [lia|reflexivity].
Qed.

(** X14. Whatever power of two up to the sector size the flash page size
    is, the buffer [config_save] programs is a whole number of pages, holds
    the whole structure and fits the sector; [config_flash_write] therefore
    never refuses it, and the sector then reads as the structure built from
    the current settings.  A size above the sector size is refused and the
    sector is left as it was. *)
Theorem config_save_is_written (k : Z) (g : globals) (sector : config_t) :
  0 <= k <= 12 ->
  new_config_size (2 ^ k) mod 2 ^ k = 0
  /\ sizeof_config_t <= new_config_size (2 ^ k) <= FLASH_SECTOR_SIZE
  /\ config_flash_write sector (config_image g) (new_config_size (2 ^ k))
     = (true, config_image g)
  /\ config_save (2 ^ k) g sector = config_image g
  /\ (forall data n, n > FLASH_SECTOR_SIZE ->
        config_flash_write sector data n = (false, sector)).
Proof.
  intros Hk. destruct (new_config_size_bounds k Hk) as (A & B).
  assert (W : config_flash_write sector (config_image g)
                (new_config_size (2 ^ k)) = (true, config_image g)).
  { unfold config_flash_write. rewrite Z.gtb_ltb.
    destruct (Z.ltb_spec FLASH_SECTOR_SIZE (new_config_size (2 ^ k)));
      [lia|reflexivity]. }
  split; [exact A|]. split; [exact B|]. split; [exact W|]. split.
  - unfold config_save. now rewrite W.
  - intros data n Hn. unfold config_flash_write. rewrite Z.gtb_ltb.
    destruct (Z.ltb_spec FLASH_SECTOR_SIZE n); [reflexivity|lia].
Qed.

Lemma bool_to_Z_test (b : bool) : negb (bool_to_Z b =? 0) = b.
Proof. now destruct b. Qed.

Lemma config_apply_flags (cfg : config_t) (g : globals) :
  internal_flags (config_apply cfg g) =
  SET_IFLAG (negb (test_mode_enabled cfg =? 0)) IFLAGS_TEST
    (SET_IFLAG (negb (debug_lines_enabled cfg =? 0)) IFLAGS_DEBUG_LINES
       (SET_IFLAG (negb (video7_enabled cfg =? 0)) IFLAGS_VIDEO7
          (SET_IFLAG (negb (forced_monochrome cfg =? 0)) IFLAGS_FORCED_MONO
             (SET_IFLAG (negb (scanline_emulation cfg =? 0)) IFLAGS_SCANLINEEMU
                (internal_flags
                   (set_machine
                      (if machine_type cfg <=? MACHINE_MAX_CFG
                       then machine_type cfg else MACHINE_AUTO)
                      (set_cfg_machine
                         (if machine_type cfg <=? MACHINE_MAX_CFG
                          then machine_type cfg else MACHINE_AUTO) g))))))).
Proof.
  unfold config_apply.
  match goal with
  | |- context [config_load_charsets ?h] =>
      destruct (config_load_charsets_keeps h) as (K1 & _)
  end.
  rewrite K1. reflexivity.
Qed.

(** X15. Saving and loading agree.  After [config_save], [config_load]
    accepts the stored configuration and restores the five option flags,
    the language switch and the enhanced font setting exactly; the color
    mode, the machine type and the two character sets are restored when
    they are in their legal ranges, and replaced by 0 (color mode, character
    sets) or [MACHINE_AUTO] when they are not. *)
Theorem config_save_load_roundtrip (k : Z) (g g0 : globals)
    (sector : config_t) (dir : fontdir_t) :
  0 <= k <= 12 -> globals_wf g ->
  let stored := config_save (2 ^ k) g sector in
  let g' := config_load stored dir g0 in
  config_invalid stored = false
  /\ IS_IFLAG (internal_flags g') IFLAGS_SCANLINEEMU
     = IS_IFLAG (internal_flags g) IFLAGS_SCANLINEEMU
  /\ IS_IFLAG (internal_flags g') IFLAGS_FORCED_MONO
     = IS_IFLAG (internal_flags g) IFLAGS_FORCED_MONO
  /\ IS_IFLAG (internal_flags g') IFLAGS_VIDEO7
     = IS_IFLAG (internal_flags g) IFLAGS_VIDEO7
  /\ IS_IFLAG (internal_flags g') IFLAGS_DEBUG_LINES
     = IS_IFLAG (internal_flags g) IFLAGS_DEBUG_LINES
  /\ IS_IFLAG (internal_flags g') IFLAGS_TEST
     = IS_IFLAG (internal_flags g) IFLAGS_TEST
  /\ language_switch_enabled g' = language_switch_enabled g
  /\ enhanced_font_enabled g' = enhanced_font_enabled g
  /\ color_mode g' = (if color_mode g <=? 2 then color_mode g else 0)
  /\ cfg_machine g' =
     (if cfg_machine g <=? MACHINE_MAX_CFG then cfg_machine g
      else MACHINE_AUTO)
  /\ cfg_local_charset g' =
     (if cfg_local_charset g >=? MAX_FONT_COUNT then 0
      else cfg_local_charset g)
  /\ cfg_alt_charset g' =
     (if cfg_alt_charset g >=? MAX_FONT_COUNT then 0
      else cfg_alt_charset g).
Proof.
  intros Hk (Wf & Wm & Wc & Wl & Wa) stored g'.
  assert (ES : stored = config_image g)
    by (apply config_save_stores_image; exact Hk).
  assert (V : config_invalid stored = false) by (rewrite ES; reflexivity).
  assert (E : g' = config_apply (config_image g) (load_font_directory dir g0))
    by (subst g'; unfold config_load; rewrite V, ES; reflexivity).
  destruct (config_apply_settings (config_image g)
              (load_font_directory dir g0))
    as (A1 & _ & A3 & A4 & A5 & A6 & A7 & _).
  pose proof (config_apply_flags (config_image g)
                (load_font_directory dir g0)) as AF.
  rewrite <- E in A1, A3, A4, A5, A6, A7, AF.
  cbn [config_image machine_type s_color_mode local_charset alt_charset
       s_language_switch_enabled s_enhanced_font_enabled scanline_emulation
       forced_monochrome video7_enabled debug_lines_enabled test_mode_enabled]
    in A1, A3, A4, A5, A6, A7, AF.
  unfold uint8 in A1, A3, A4, A5.
  rewrite Z.mod_small in A1, A3, A4, A5 by assumption.
  rewrite !bool_to_Z_test in A6, A7, AF.
  split; [exact V|].
  rewrite A1, A3, A4, A5, A6, A7, AF.
  change IFLAGS_SCANLINEEMU with (2 ^ 23).
  change IFLAGS_DEBUG_LINES with (2 ^ 20).
  change IFLAGS_FORCED_MONO with (2 ^ 22).
  change IFLAGS_VIDEO7 with (2 ^ 26).
  change IFLAGS_TEST with (2 ^ 29).
  rewrite !IS_IFLAG_bit by lia.
  rewrite !SET_IFLAG_testbit by lia.
  rewrite !set_machine_testbit by lia.
  eval_const_bits.
  destruct (Z.testbit (internal_flags g) 23), (Z.testbit (internal_flags g) 22),
    (Z.testbit (internal_flags g) 26), (Z.testbit (internal_flags g) 20),
    (Z.testbit (internal_flags g) 29);
    cbn [negb andb orb];
    rewrite ?andb_true_r, ?andb_false_r, ?orb_true_r, ?orb_false_r;
    repeat split; reflexivity.
Qed.

Lemma config_load_keeps_invalid_fonts (cfg : config_t) (dir : fontdir_t)
    (g : globals) :
  invalid_fonts (config_load cfg dir g) =
  invalid_fonts (load_font_directory dir g).
Proof.
  unfold config_load. destruct (config_invalid cfg).
  - reflexivity.
  - destruct (config_apply_settings cfg (load_font_directory dir g))
      as (_ & _ & _ & _ & _ & _ & _ & _ & A9 & _).
    exact A9.
Qed.

(** X16. The font directory round trip: after [config_font_update],
    [config_load] restores the mask of invalid fonts, whether or not the
    stored configuration itself is valid; a font directory without the
    magic word leaves the mask as it is. *)
Theorem font_directory_roundtrip (cfg : config_t) (g g0 : globals) :
  invalid_fonts (config_load cfg (config_font_update g) g0) = invalid_fonts g
  /\ (forall dir : fontdir_t,
        f_magic_word dir <> FONT_MAGIC_WORD_VALUE ->
        invalid_fonts (config_load cfg dir g0) = invalid_fonts g0).
Proof.
  split.
  - rewrite config_load_keeps_invalid_fonts. reflexivity.
  - intros dir Hd. rewrite config_load_keeps_invalid_fonts.
    unfold load_font_directory.
    destruct (Z.eqb_spec (f_magic_word dir) FONT_MAGIC_WORD_VALUE);
      [contradiction|reflexivity].
Qed.

End StoreProps.

Section StoreSample.
#[local] Existing Instance demo_platform.

Lemma demo_globals_wf : globals_wf demo_globals.
Proof. vm_compute. repeat split; congruence. Qed.

Lemma check_valid_font_usable_witness :
  let r := check_valid_font demo_globals 20 in
  (20 < first_custom_font -> r = 20)
  /\ (first_custom_font <= 20 ->
        r = if Z.testbit (invalid_fonts demo_globals) (20 - first_custom_font)
            then DEFAULT_LOCAL_CHARSET else 20)
  /\ (r < first_custom_font
      \/ Z.testbit (invalid_fonts demo_globals) (r - first_custom_font) = false)
  /\ 0 <= r < MAX_FONT_COUNT.
Proof.
  apply (check_valid_font_usable demo_globals 20);
    vm_compute; split; congruence.
Defined.

(** A stored configuration whose color mode, machine type and character
    sets are all out of range. *)
Lemma config_load_sanitises_witness :
  let cfg := demo_unclean_config in
  let g' := config_load cfg demo_fontdir demo_globals in
  (color_mode g' = (if s_color_mode cfg <=? 2 then s_color_mode cfg else 0)
   /\ cfg_machine g' =
      (if machine_type cfg <=? MACHINE_MAX_CFG then machine_type cfg
       else MACHINE_AUTO)
   /\ cfg_local_charset g' =
      (if local_charset cfg >=? MAX_FONT_COUNT then 0 else local_charset cfg)
   /\ cfg_alt_charset g' =
      (if alt_charset cfg >=? MAX_FONT_COUNT then 0 else alt_charset cfg)
   /\ (2 < s_color_mode cfg -> color_mode g' = 0)
   /\ (s_color_mode cfg <= 2 -> color_mode g' = s_color_mode cfg)
   /\ (MACHINE_MAX_CFG < machine_type cfg -> cfg_machine g' = MACHINE_AUTO)
   /\ (machine_type cfg <= MACHINE_MAX_CFG ->
         cfg_machine g' = machine_type cfg)
   /\ (MAX_FONT_COUNT <= local_charset cfg -> cfg_local_charset g' = 0)
   /\ (local_charset cfg < MAX_FONT_COUNT ->
         cfg_local_charset g' = local_charset cfg)
   /\ (MAX_FONT_COUNT <= alt_charset cfg -> cfg_alt_charset g' = 0)
   /\ (alt_charset cfg < MAX_FONT_COUNT ->
         cfg_alt_charset g' = alt_charset cfg)
   /\ current_machine g' = cfg_machine g'
   /\ color_mode g' <= 2
   /\ cfg_local_charset g' < MAX_FONT_COUNT
   /\ cfg_alt_charset g' < MAX_FONT_COUNT
   /\ reload_charsets g' = 0)
  /\ s_color_mode cfg = 7 /\ color_mode g' = 0
  /\ machine_type cfg = 9 /\ cfg_machine g' = 0xff
  /\ local_charset cfg = 200 /\ cfg_local_charset g' = 0
  /\ alt_charset cfg = 32 /\ cfg_alt_charset g' = 0.
Proof.
  split.
  - apply (config_load_sanitises demo_unclean_config demo_fontdir
             demo_globals).
    + reflexivity.
    + vm_compute. discriminate.
    + vm_compute. reflexivity.
  - vm_compute. repeat split.
Defined.

Lemma config_save_is_written_witness :
  new_config_size (2 ^ 8) mod 2 ^ 8 = 0
  /\ sizeof_config_t <= new_config_size (2 ^ 8) <= FLASH_SECTOR_SIZE
  /\ config_flash_write demo_erased_config (config_image demo_globals)
       (new_config_size (2 ^ 8))
     = (true, config_image demo_globals)
  /\ config_save (2 ^ 8) demo_globals demo_erased_config
     = config_image demo_globals
  /\ (forall data n, n > FLASH_SECTOR_SIZE ->
        config_flash_write demo_erased_config data n
        = (false, demo_erased_config)).
Proof.
  apply (config_save_is_written 8 demo_globals demo_erased_config). lia.
Defined.

Lemma config_save_load_roundtrip_witness :
  let stored := config_save (2 ^ 8) demo_globals demo_erased_config in
  let g' := config_load stored demo_fontdir demo_globals in
  config_invalid stored = false
  /\ IS_IFLAG (internal_flags g') IFLAGS_SCANLINEEMU
     = IS_IFLAG (internal_flags demo_globals) IFLAGS_SCANLINEEMU
  /\ IS_IFLAG (internal_flags g') IFLAGS_FORCED_MONO
     = IS_IFLAG (internal_flags demo_globals) IFLAGS_FORCED_MONO
  /\ IS_IFLAG (internal_flags g') IFLAGS_VIDEO7
     = IS_IFLAG (internal_flags demo_globals) IFLAGS_VIDEO7
  /\ IS_IFLAG (internal_flags g') IFLAGS_DEBUG_LINES
     = IS_IFLAG (internal_flags demo_globals) IFLAGS_DEBUG_LINES
  /\ IS_IFLAG (internal_flags g') IFLAGS_TEST
     = IS_IFLAG (internal_flags demo_globals) IFLAGS_TEST
  /\ language_switch_enabled g' = language_switch_enabled demo_globals
  /\ enhanced_font_enabled g' = enhanced_font_enabled demo_globals
  /\ color_mode g' =
     (if color_mode demo_globals <=? 2 then color_mode demo_globals else 0)
  /\ cfg_machine g' =
     (if cfg_machine demo_globals <=? MACHINE_MAX_CFG
      then cfg_machine demo_globals else MACHINE_AUTO)
  /\ cfg_local_charset g' =
     (if cfg_local_charset demo_globals >=? MAX_FONT_COUNT then 0
      else cfg_local_charset demo_globals)
  /\ cfg_alt_charset g' =
     (if cfg_alt_charset demo_globals >=? MAX_FONT_COUNT then 0
      else cfg_alt_charset demo_globals).
Proof.
  apply (config_save_load_roundtrip 8 demo_globals demo_globals
           demo_erased_config demo_fontdir).
  - lia.
  - exact demo_globals_wf.
Defined.

End StoreSample.

End ConfigExtra.
